(** * go-shopify, order.go: the pagination walker and the tolerant decoders

    A shallow embedding of the three functions of [order.go] that carry
    logic of their own:

    - [OrderServiceOp.ListAll], the loop over [ListWithPagination];
    - [LineItem.UnmarshalJSON], which accepts [properties] as an array, as a
      single object or not at all;
    - [ShippingLines.UnmarshalJSON], which accepts
      [requested_fulfillment_service_id] as a string, a number or null.

    Go data is kept the way Go has it: a slice is [nil] or a sequence, a
    pointer is [nil] or a value, an [interface{}] filled by [encoding/json]
    holds one of the dynamic types the decoder produces, a method with a
    pointer receiver hands back the receiver as it leaves it, and a nil
    dereference is a panic, not an error.

    Part I holds the definitions, Part II the lemmas and theorems. *)

From Stdlib Require Import List String Ascii ZArith Lia Bool.
From Stdlib Require Import SpecFloat DecimalString DecimalPos DecimalN.
Import ListNotations.
Set Warnings "-register-all".
Local Open Scope string_scope.
Local Open Scope list_scope.

(** * Part I: definitions *)

(** ** Go slices *)

Module Slice.

(** A slice value as far as this file can observe it: [nil], or a backing
    array seen through its elements (the literal [[]T{}] is [Some []]). *)
Definition slice (A : Type) : Type := option (list A).

Definition elems {A} (s : slice A) : list A :=
  match s with
  | None => []
  | Some l => l
  end.

Definition len {A} (s : slice A) : nat := List.length (elems s).

Definition isNil {A} (s : slice A) : bool :=
  match s with
  | None => true
  | Some _ => false
  end.

(** [append(s, t...)]: with nothing to add the first argument comes back as
    it is (so [nil] stays [nil]), otherwise the result is a non-nil slice
    holding the elements of both. *)
Definition append {A} (s t : slice A) : slice A :=
  match elems t with
  | [] => s
  | _ :: _ => Some (elems s ++ elems t)
  end.

End Slice.

Import Slice.

(** ** How a call ends *)

(** A Go call either returns or panics.  [A] is what the caller holds when
    the call has returned. *)
Inductive outcome (A : Type) : Type :=
| Returned (a : A)
| Panicked.
Arguments Returned {A} a.
Arguments Panicked {A}.

(** ** The pagination walker *)

Module Walker.
Section Walker.

(** [Order] is the record type of the collection; [ListOptions] is what a
    [*ListOptions] points to; [Iface] is the type of the values the
    [interface{}] options argument can hold; [GoError] the non-nil values of
    [error]; [World] whatever the shared client talks to. *)
Variables Order ListOptions Iface Ctx GoError World : Type.

(** Storing a [*ListOptions] in the [interface{}] variable [options]. *)
Variable toIface : ListOptions -> Iface.

(** Modelled from the spec: the [Pagination] struct of the client is declared
    outside [order.go]; section 4.1 gives a page an optional successor
    cursor, a ready-to-use options value for the next call or nothing.
    [NextPageOptions] is the only field [ListAll] reads. *)
Record Pagination : Type := { NextPageOptions : option ListOptions }.

(** What [s.client.ListWithPagination(ctx, path, resource, options)] leaves
    behind: [resource.Orders] as decoded into the fresh [OrdersResource], the
    returned [*Pagination] and the returned [error]. *)
Record clientReply : Type := {
  replyOrders : slice Order;
  replyPagination : option Pagination;
  replyErr : option GoError
}.

(** The fetch collaborator ([Client.ListWithPagination], outside
    [order.go]): any function of the world, the context, the path and the
    options. *)
Variable clientListWithPagination :
  World -> Ctx -> string -> Iface -> World * clientReply.

Definition ordersBasePath : string := "orders".

(** [OrderServiceOp.ListWithPagination]. *)
Definition ListWithPagination (w : World) (ctx : Ctx) (options : Iface)
  : World * (slice Order * option Pagination * option GoError) :=
  let path := (ordersBasePath ++ ".json")%string in
  let '(w', r) := clientListWithPagination w ctx path options in
  match replyErr r with
  | Some err => (w', (None, None, Some err))
  | None => (w', (replyOrders r, replyPagination r, None))
  end.

(** What one run of [ListAll] amounts to: the world it leaves, the options
    value of every [ListWithPagination] call it made, in order, and how it
    ended. *)
Record run : Type := {
  world : World;
  calls : list Iface;
  result : outcome (slice Order * option GoError)
}.

(** The [for] loop of [ListAll].  [fuel] bounds the number of iterations;
    [None] means the bound was reached with the loop still running.
    [called] is the list of options values passed so far, latest first. *)
Fixpoint ListAll_loop (fuel : nat) (w : World) (ctx : Ctx)
         (options : Iface) (collector : slice Order) (called : list Iface)
  : option run :=
  match fuel with
  | O => None
  | S fuel' =>
      let '(w', (entities, pagination, err)) :=
        ListWithPagination w ctx options in
      let called' := options :: called in
      match err with
      | Some e =>
          Some {| world := w'; calls := rev called';
                  result := Returned (collector, Some e) |}
      | None =>
          let collector' := append collector entities in
          match pagination with
          | None =>
              (* pagination.NextPageOptions on a nil *Pagination *)
              Some {| world := w'; calls := rev called';
                      result := Panicked |}
          | Some pg =>
              match NextPageOptions pg with
              | None =>
                  Some {| world := w'; calls := rev called';
                          result := Returned (collector', None) |}
              | Some next =>
                  ListAll_loop fuel' w' ctx (toIface next) collector' called'
              end
          end
      end
  end.

(** [OrderServiceOp.ListAll]: [collector := []Order{}], then the loop. *)
Definition ListAll (fuel : nat) (w : World) (ctx : Ctx) (options : Iface)
  : option run :=
  ListAll_loop fuel w ctx options (Some []) [].

(** [pages ctx w o ps w' o']: from world [w] and options [o], [length ps]
    fetches in a row succeed, the i-th returning the records [fst] and the
    next-page options [snd] of the i-th entry of [ps]; they leave the world
    [w'] and the options value [o'] for the fetch after them. *)
Inductive pages (ctx : Ctx)
  : World -> Iface -> list (slice Order * ListOptions) -> World -> Iface -> Prop :=
| pages_done w o : pages ctx w o [] w o
| pages_more w o recs next w1 ps w' o' :
    clientListWithPagination w ctx (ordersBasePath ++ ".json")%string o
    = (w1, {| replyOrders := recs;
              replyPagination := Some {| NextPageOptions := Some next |};
              replyErr := None |}) ->
    pages ctx w1 (toIface next) ps w' o' ->
    pages ctx w o ((recs, next) :: ps) w' o'.

(** The records of a run of pages, in page-arrival order. *)
Definition recordsOf (ps : list (slice Order * ListOptions)) : list Order :=
  List.concat (List.map (fun p => elems (fst p)) ps).

(** The options values the fetches after the first one receive. *)
Definition nextOptionsOf (ps : list (slice Order * ListOptions)) : list Iface :=
  List.map (fun p => toIface (snd p)) ps.

End Walker.

Arguments NextPageOptions {ListOptions} p.
Arguments Build_Pagination {ListOptions} NextPageOptions.
Arguments replyOrders {Order ListOptions GoError} c.
Arguments replyPagination {Order ListOptions GoError} c.
Arguments replyErr {Order ListOptions GoError} c.
Arguments Build_clientReply {Order ListOptions GoError} _ _ _.
Arguments world {Order Iface GoError World} r.
Arguments calls {Order Iface GoError World} r.
Arguments result {Order Iface GoError World} r.
Arguments Build_run {Order Iface GoError World} _ _ _.
Arguments ListWithPagination {Order ListOptions Iface Ctx GoError World}
  clientListWithPagination w ctx options.
Arguments ListAll_loop {Order ListOptions Iface Ctx GoError World}
  toIface clientListWithPagination fuel w ctx options collector called.
Arguments ListAll {Order ListOptions Iface Ctx GoError World}
  toIface clientListWithPagination fuel w ctx options.
Arguments pages {Order ListOptions Iface Ctx GoError World}
  toIface clientListWithPagination ctx _ _ _ _ _.
Arguments recordsOf {Order ListOptions} ps.
Arguments nextOptionsOf {Order ListOptions Iface} toIface ps.

End Walker.

(** ** JSON texts *)

Module JSON.

(** A JSON value as [encoding/json]'s scanner delimits it.  A number keeps
    its literal (sign, integer digits, fraction digits, exponent): the
    decoder converts it only when it knows the Go type it stores into.  A
    string is the byte sequence after unquoting; the members of an object are
    in the order of the text, repeated keys included. *)
Inductive value : Type :=
| JNull
| JBool (b : bool)
| JNumber (literal : Decimal.decimal)
| JString (s : string)
| JArray (elements : list value)
| JObject (members : list (string * value)).

(** The [data []byte] handed to [json.Unmarshal]: either the scanner's
    [checkValid] rejects it, or it spells one value.  Blanks and the spelling
    of escapes are not kept: nothing in [order.go] can observe them (the
    decoder skips blanks before it hands the text of a value on). *)
Inductive text : Type :=
| Invalid
| Valid (v : value).

(** [json.RawMessage]: the bytes of a value's text, or [nil] (length 0) when
    the decoder never stored one: the text of a value has at least one byte.
    The text is kept as the value it spells. *)
Definition RawMessage : Type := option value.

Definition firstDigit (u : Decimal.uint) : ascii :=
  match u with
  | Decimal.Nil | Decimal.D0 _ => "0"
  | Decimal.D1 _ => "1"
  | Decimal.D2 _ => "2"
  | Decimal.D3 _ => "3"
  | Decimal.D4 _ => "4"
  | Decimal.D5 _ => "5"
  | Decimal.D6 _ => "6"
  | Decimal.D7 _ => "7"
  | Decimal.D8 _ => "8"
  | Decimal.D9 _ => "9"
  end%char.

Definition integerPart (d : Decimal.decimal) : Decimal.int :=
  match d with
  | Decimal.Decimal i _ => i
  | Decimal.DecimalExp i _ _ => i
  end.

(** The double quote, byte 34. *)
Definition dquote : ascii := "034"%char.

(** The first byte of the text of a value. *)
Definition firstByte (v : value) : ascii :=
  match v with
  | JNull => "n"
  | JBool true => "t"
  | JBool false => "f"
  | JNumber d =>
      match integerPart d with
      | Decimal.Pos u => firstDigit u
      | Decimal.Neg _ => "-"
      end
  | JString _ => dquote
  | JArray _ => "["
  | JObject _ => "{"
  end%char.

(** A number literal without fraction or exponent. *)
Definition JInt (z : Z) : value := JNumber (Decimal.Decimal (Z.to_int z) Decimal.Nil).

End JSON.

Import JSON.

(** ** strconv: numbers to and from text *)

Module Strconv.
Local Open Scope string_scope.

(** A [float64]: IEEE 754 binary64, as the specification of Rocq's binary
    floats has it (precision 53, infinities at exponent 1024). *)
Definition float64 : Type := spec_float.

Definition prec : Z := 53.
Definition emax : Z := 1024.

Definition float64_eqb (x y : float64) : bool :=
  match x, y with
  | S754_zero a, S754_zero b => Bool.eqb a b
  | S754_infinity a, S754_infinity b => Bool.eqb a b
  | S754_finite a m e, S754_finite b m' e' =>
      Bool.eqb a b && Pos.eqb m m' && Z.eqb e e'
  | _, _ => false
  end.

(** The binary64 nearest to [(-1)^neg * m * 10^e10], ties to even. *)
Definition nearest64 (neg : bool) (m e10 : Z) : float64 :=
  if (m =? 0)%Z then S754_zero neg
  else
    let '(num, den) :=
      if (0 <=? e10)%Z then ((m * 10 ^ e10)%Z, 1%Z)
      else (m, (10 ^ (- e10))%Z) in
    let '(q, e, l) := SFdiv_core_binary prec emax num 0 den 0 in
    binary_round_aux prec emax neg q e l.

Definition isNegative (i : Decimal.int) : bool :=
  match i with
  | Decimal.Pos _ => false
  | Decimal.Neg _ => true
  end.

(** A literal as sign, integer mantissa and power of ten. *)
Definition scientific (d : Decimal.decimal) : bool * Z * Z :=
  match d with
  | Decimal.Decimal i f =>
      (isNegative i, Z.of_uint (Decimal.app (Decimal.abs i) f),
       (- Z.of_nat (Decimal.nb_digits f))%Z)
  | Decimal.DecimalExp i f e =>
      (isNegative i, Z.of_uint (Decimal.app (Decimal.abs i) f),
       (Z.of_int e - Z.of_nat (Decimal.nb_digits f))%Z)
  end.

(** [strconv.ParseFloat(s, 64)] on a JSON number literal: the nearest
    binary64, or [None] for the range error ([ErrRange]) it reports when that
    is an infinity. *)
Definition ParseFloat (d : Decimal.decimal) : option float64 :=
  let '(neg, m, e10) := scientific d in
  match nearest64 neg m e10 with
  | S754_infinity _ => None
  | f => Some f
  end.

(** Decimal digits of a float, as [strconv]'s [decimalSlice] holds them: the
    digits [d] (no trailing zero) and the position [dp] of the decimal point,
    for the value [0.d * 10^dp]. *)
Record decimalSlice : Type := { d : string; dp : Z }.

Definition digitString (c : Z) : string :=
  NilEmpty.string_of_uint (N.to_uint (Z.to_N c)).

(** [c * 10^q] without trailing zeros in [c]. *)
Fixpoint stripZeros (fuel : nat) (c q : Z) : Z * Z :=
  match fuel with
  | O => (c, q)
  | S fuel' =>
      if ((c mod 10 =? 0) && negb (c =? 0))%Z
      then stripZeros fuel' (c / 10)%Z (q + 1)%Z
      else (c, q)
  end.

(** The shortest decimal that [ParseFloat] reads back as [m * 2^e], searched
    from one digit upwards; of the two [n]-digit neighbours of the value the
    nearer one that reads back is taken (the even one on a tie). *)
Fixpoint shortestFrom (fuel : nat) (n : Z) (m : positive) (e : Z) (c q : Z) (nd : Z)
  : Z * Z :=
  match fuel with
  | O => (c, q)
  | S fuel' =>
      let drop := (nd - n)%Z in
      if (drop <=? 0)%Z then (c, q)
      else
        let unit := (10 ^ drop)%Z in
        let lo := (c / unit)%Z in
        let rest := (c mod unit)%Z in
        let qn := (q + drop)%Z in
        if (rest =? 0)%Z then (lo, qn)
        else
          let f := S754_finite false m e in
          let down := float64_eqb (nearest64 false lo qn) f in
          let up := float64_eqb (nearest64 false (lo + 1) qn) f in
          let upNearer :=
            match (2 * rest ?= unit)%Z with
            | Lt => false
            | Gt => true
            | Eq => Z.odd lo
            end in
          match down, up with
          | true, true => if upNearer then ((lo + 1)%Z, qn) else (lo, qn)
          | true, false => (lo, qn)
          | false, true => ((lo + 1)%Z, qn)
          | false, false => shortestFrom fuel' (n + 1)%Z m e c q nd
          end
  end.

(** The digits [FormatFloat(f, fmt, -1, 64)] works from. *)
Definition shortest (m : positive) (e : Z) : decimalSlice :=
  let '(c, q) :=
    if (0 <=? e)%Z then ((Zpos m * 2 ^ e)%Z, 0%Z)
    else ((Zpos m * 5 ^ (- e))%Z, e) in
  let nd := Z.of_nat (String.length (digitString c)) in
  let '(c1, q1) := shortestFrom 17 1 m e c q nd in
  let '(c2, q2) := stripZeros (Z.to_nat nd) c1 q1 in
  let ds := digitString c2 in
  {| d := ds; dp := (Z.of_nat (String.length ds) + q2)%Z |}.

Definition zeros (n : Z) : string :=
  String.concat EmptyString (List.repeat "0" (Z.to_nat n)).

Definition digitAt (ds : string) (j : Z) : string :=
  if (j <? 0)%Z then "0"
  else match String.get (Z.to_nat j) ds with
       | Some c => String c EmptyString
       | None => "0"
       end.

Fixpoint fraction (fuel : nat) (ds : string) (j : Z) : string :=
  match fuel with
  | O => EmptyString
  | S fuel' => digitAt ds j ++ fraction fuel' ds (j + 1)%Z
  end.

(** [%e]: [d.dddde+dd], the exponent with its sign and two digits at least. *)
Definition fmtE (neg : bool) (digs : decimalSlice) (p : Z) : string :=
  let nd := Z.of_nat (String.length (d digs)) in
  let sign := if neg then "-" else EmptyString in
  let first := if (nd =? 0)%Z then "0" else digitAt (d digs) 0 in
  let more :=
    if (0 <? p)%Z
    then "." ++ String.substring 1 (Z.to_nat (Z.min nd (p + 1) - 1)) (d digs)
             ++ zeros (p + 1 - Z.max 1 (Z.min nd (p + 1)))
    else EmptyString in
  let exp := if (nd =? 0)%Z then 0%Z else (dp digs - 1)%Z in
  let esign := if (exp <? 0)%Z then "-" else "+" in
  let a := Z.abs exp in
  let edigits := if (a <? 10)%Z then "0" ++ digitString a else digitString a in
  sign ++ first ++ more ++ "e" ++ esign ++ edigits.

(** [%f]: [ddddd.ddd]. *)
Definition fmtF (neg : bool) (digs : decimalSlice) (p : Z) : string :=
  let nd := Z.of_nat (String.length (d digs)) in
  let sign := if neg then "-" else EmptyString in
  let int :=
    if (0 <? dp digs)%Z
    then String.substring 0 (Z.to_nat (Z.min nd (dp digs))) (d digs)
         ++ zeros (dp digs - Z.min nd (dp digs))
    else "0" in
  let frac :=
    if (0 <? p)%Z then "." ++ fraction (Z.to_nat p) (d digs) (dp digs)
    else EmptyString in
  sign ++ int ++ frac.

(** [FormatFloat(f, 'g', -1, 64)]: the shortest digits, in [%e] form when
    the decimal exponent is below -4 or at least 6 (the precision [strconv]
    takes for this decision when it was asked for the shortest digits), in
    [%f] form otherwise. *)
Definition FormatFloat_g (f : float64) : string :=
  match f with
  | S754_nan => "NaN"
  | S754_infinity neg => if neg then "-Inf" else "+Inf"
  | S754_zero neg => fmtF neg {| d := EmptyString; dp := 0 |} 0
  | S754_finite neg m e =>
      let digs := shortest m e in
      let nd := Z.of_nat (String.length (d digs)) in
      let eprec := 6%Z in
      let exp := (dp digs - 1)%Z in
      if ((exp <? -4) || (eprec <=? exp))%Z
      then fmtE neg digs (nd - 1)
      else fmtF neg digs (Z.max (nd - dp digs) 0)
  end.

End Strconv.

(** ** interface{} values and fmt *)

Module Fmt.
Import Strconv.
Local Open Scope string_scope.

(** The dynamic values [encoding/json] stores in an [interface{}]: [nil],
    [bool], [float64], [string], [[]interface{}] and
    [map[string]interface{}].  A map is kept sorted by key, one entry per
    key. *)
Inductive any : Type :=
| AnyNil
| AnyBool (b : bool)
| AnyFloat64 (f : float64)
| AnyString (s : string)
| AnySlice (l : list any)
| AnyMap (m : list (string * any)).

Definition isNilAny (a : any) : bool :=
  match a with
  | AnyNil => true
  | _ => false
  end.

(** [m[k] = v]. *)
Fixpoint mapSet {A : Type} (k : string) (v : A) (m : list (string * A))
  : list (string * A) :=
  match m with
  | [] => [(k, v)]
  | (k', v') :: r =>
      match String.compare k k' with
      | Lt => (k, v) :: m
      | Eq => (k, v) :: r
      | Gt => (k', v') :: mapSet k v r
      end
  end.

(** [fmt.Sprintf("%v", a)]: a bool as [true] or [false], a float64 in
    [%g] form with the shortest digits, a string as it is, a slice as
    [[a b c]], a map as [map[k:v k:v]] in key order, nil as [<nil>]. *)
Fixpoint Sprintf_v (a : any) : string :=
  match a with
  | AnyNil => "<nil>"
  | AnyBool true => "true"
  | AnyBool false => "false"
  | AnyFloat64 f => FormatFloat_g f
  | AnyString s => s
  | AnySlice l =>
      let fix items (l : list any) : string :=
        match l with
        | [] => EmptyString
        | x :: r =>
            match r with
            | [] => Sprintf_v x
            | _ :: _ => Sprintf_v x ++ " " ++ items r
            end
        end in
      "[" ++ items l ++ "]"
  | AnyMap m =>
      let fix entries (m : list (string * any)) : string :=
        match m with
        | [] => EmptyString
        | (k, x) :: r =>
            match r with
            | [] => k ++ ":" ++ Sprintf_v x
            | _ :: _ => k ++ ":" ++ Sprintf_v x ++ " " ++ entries r
            end
        end in
      "map[" ++ entries m ++ "]"
  end.

End Fmt.

(** ** encoding/json: decoding *)

Module Decode.
Import Strconv Fmt.

(** What the [Value] field of an [UnmarshalTypeError] describes. *)
Inductive described : Type :=
| OfArray
| OfObject
| OfString
| OfBool
| OfNumber
| OfNumberLiteral (literal : Decimal.decimal).

(** The errors of a decode: the [SyntaxError] of a text that is no JSON, the
    [UnmarshalTypeError] of a value that does not fit the Go type it is
    stored into, and whatever else an [UnmarshalJSON] method of a field
    returns. *)
Inductive error : Type :=
| SyntaxError
| UnmarshalTypeError (Value : described) (GoType : string)
| FieldError (message : string).

(** [d.saveError] keeps the first error and lets the decode go on.
    [firstError saved e] is [d.savedError] after a piece of the text whose
    own first error is [e] has been decoded. *)
Definition firstError (saved e : option error) : option error :=
  match saved with
  | None => e
  | Some _ => saved
  end.

(** How a type error names the value (null never is one). *)
Definition describe (v : value) : described :=
  match v with
  | JBool _ => OfBool
  | JNumber _ => OfNumber
  | JString _ => OfString
  | JArray _ => OfArray
  | JNull | JObject _ => OfObject
  end.

(** *** Field names *)

Definition upper (c : ascii) : ascii :=
  let n := nat_of_ascii c in
  if (97 <=? n)%nat && (n <=? 122)%nat then ascii_of_nat (n - 32) else c.

(** [foldName]: the key with ASCII letters in upper case and the two runes
    that fold onto an ASCII letter replaced by it: U+017F (bytes 197, 191)
    by S and U+212A (bytes 226, 132, 170) by K.  Other runes stay as they
    are, which is all that matching against ASCII field names needs. *)
Fixpoint foldName (s : string) : string :=
  match s with
  | EmptyString => EmptyString
  | String c rest =>
      match nat_of_ascii c, rest with
      | 197%nat, String c1 rest1 =>
          if (nat_of_ascii c1 =? 191)%nat
          then String "S" (foldName rest1)
          else String c (foldName rest)
      | 226%nat, String c1 (String c2 rest2) =>
          if ((nat_of_ascii c1 =? 132) && (nat_of_ascii c2 =? 170))%nat
          then String "K" (foldName rest2)
          else String c (foldName rest)
      | _, _ => String (upper c) (foldName rest)
      end
  end.

(** The field an object key is stored into: the field of that very name if
    there is one, else the first field with the same folded name. *)
Definition findField (names : list string) (key : string) : option string :=
  match List.find (String.eqb key) names with
  | Some n => Some n
  | None => List.find (fun n => String.eqb (foldName n) (foldName key)) names
  end.

(** Whether a member with this key is stored into the field [field]. *)
Definition storedIn (names : list string) (field key : string) : bool :=
  match findField names key with
  | Some f => String.eqb f field
  | None => false
  end.

(** [member names field ms]: the member of the object that counts for the
    field [field]: the last one whose key is stored into it. *)
Fixpoint member (names : list string) (field : string)
         (ms : list (string * value)) : option value :=
  match ms with
  | [] => None
  | (key, v) :: rest =>
      match member names field rest with
      | Some v' => Some v'
      | None => if storedIn names field key then Some v else None
      end
  end.

(** *** Storing into an interface{} *)

(** [d.convertNumber]: a number bound for an [interface{}] becomes a
    [float64]. *)
Definition convertNumber (literal : Decimal.decimal) : float64 + error :=
  match ParseFloat literal with
  | Some f => inl f
  | None => inr (UnmarshalTypeError (OfNumberLiteral literal) "float64")
  end.

(** [d.valueInterface]: the value as a fresh [interface{}], and the first
    error saved on the way (a number that does not convert leaves [nil]). *)
Fixpoint valueInterface (v : value) : any * option error :=
  match v with
  | JNull => (AnyNil, None)
  | JBool b => (AnyBool b, None)
  | JString s => (AnyString s, None)
  | JNumber literal =>
      match convertNumber literal with
      | inl f => (AnyFloat64 f, None)
      | inr e => (AnyNil, Some e)
      end
  | JArray vs =>
      let fix arrayInterface (vs : list value) : list any * option error :=
        match vs with
        | [] => ([], None)
        | x :: r =>
            let '(a, e1) := valueInterface x in
            let '(l, e2) := arrayInterface r in
            (a :: l, firstError e1 e2)
        end in
      let '(l, e) := arrayInterface vs in
      (AnySlice l, e)
  | JObject ms =>
      let fix objectInterface (ms : list (string * value))
              (m : list (string * any)) : list (string * any) * option error :=
        match ms with
        | [] => (m, None)
        | (k, x) :: r =>
            let '(a, e1) := valueInterface x in
            let '(m', e2) := objectInterface r (mapSet k a m) in
            (m', firstError e1 e2)
        end in
      let '(m, e) := objectInterface ms [] in
      (AnyMap m, e)
  end.

(** A value stored into a struct field of type [interface{}] that holds
    [old]: null clears it, a number that does not convert leaves it alone. *)
Definition storeInterface (old : any) (v : value) : any * option error :=
  match v with
  | JNumber literal =>
      match convertNumber literal with
      | inl f => (AnyFloat64 f, None)
      | inr e => (old, Some e)
      end
  | _ => valueInterface v
  end.

(** A value an [interface{}] takes without an error: every number in it has
    a [float64]. *)
Definition fitsInterface (v : value) : bool :=
  match snd (valueInterface v) with
  | None => true
  | Some _ => false
  end.

(** A value stored into a struct field of type [string] that holds [old]:
    null leaves it alone, anything but a string is a type error. *)
Definition storeString (old : string) (v : value) : string * option error :=
  match v with
  | JString s => (s, None)
  | JNull => (old, None)
  | _ => (old, Some (UnmarshalTypeError (describe v) "string"))
  end.

(** How the decode of one field of a struct ends: the value is stored, or a
    type error is saved and decoding goes on, or the [UnmarshalJSON] method
    of the field's type returns an error and the decode stops there. *)
Inductive fieldOutcome : Type :=
| Stored
| Saved (e : error)
| Failed (e : error).

End Decode.

(** ** LineItem *)

Module LineItemJSON.
Import Strconv Fmt Decode.

(** [NoteAttribute]: [Name string] under [name], [Value interface{}] under
    [value]. *)
Record NoteAttribute : Type := { Name : string; Value : any }.

Definition zeroNoteAttribute : NoteAttribute :=
  {| Name := EmptyString; Value := AnyNil |}.

Definition noteAttributeFields : list string := ["name"; "value"].

(** The members of an object stored into the [NoteAttribute] [p], one after
    the other; keys that name no field are skipped. *)
Fixpoint object_NoteAttribute (ms : list (string * value)) (p : NoteAttribute)
         (saved : option error) : NoteAttribute * option error :=
  match ms with
  | [] => (p, saved)
  | (key, v) :: rest =>
      match findField noteAttributeFields key with
      | Some field =>
          if String.eqb field "name" then
            let '(s, e) := storeString (Name p) v in
            object_NoteAttribute rest {| Name := s; Value := Value p |}
                                 (firstError saved e)
          else
            let '(a, e) := storeInterface (Value p) v in
            object_NoteAttribute rest {| Name := Name p; Value := a |}
                                 (firstError saved e)
      | None => object_NoteAttribute rest p saved
      end
  end.

Definition goNoteAttribute : string := "goshopify.NoteAttribute".

(** A value stored into the [NoteAttribute] [p]: null leaves it alone, an
    object fills its fields, anything else is a type error. *)
Definition value_NoteAttribute (v : value) (p : NoteAttribute)
  : NoteAttribute * option error :=
  match v with
  | JNull => (p, None)
  | JObject ms => object_NoteAttribute ms p None
  | _ => (p, Some (UnmarshalTypeError (describe v) goNoteAttribute))
  end.

(** [var p NoteAttribute; err = json.Unmarshal(raw, &p)] on the text of a
    value. *)
Definition Unmarshal_NoteAttribute (raw : value) : NoteAttribute * option error :=
  value_NoteAttribute raw zeroNoteAttribute.

(** The elements of an array stored into a growing [[]NoteAttribute]: every
    element starts from the zero value; an element that does not fit saves
    its error and stays in the slice. *)
Fixpoint array_NoteAttribute (vs : list value) (saved : option error)
  : list NoteAttribute * option error :=
  match vs with
  | [] => ([], saved)
  | x :: r =>
      let '(p, e) := value_NoteAttribute x zeroNoteAttribute in
      let '(ps, saved') := array_NoteAttribute r (firstError saved e) in
      (p :: ps, saved')
  end.

(** [var p []NoteAttribute; err = json.Unmarshal(raw, &p)] on the text of a
    value: an array gives a non-nil slice, the empty one included. *)
Definition Unmarshal_NoteAttributes (raw : value)
  : slice NoteAttribute * option error :=
  match raw with
  | JNull => (None, None)
  | JArray vs =>
      let '(ps, saved) := array_NoteAttribute vs None in
      (Some ps, saved)
  | _ => (None, Some (UnmarshalTypeError (describe raw)
                        (String.append "[]" goNoteAttribute)))
  end.

(** The JSON names of the fields of [LineItem], in the order of the struct
    (order.go, lines 373 to 404). *)
Definition fieldNames : list string :=
  [ "id"; "product_id"; "variant_id"; "quantity"; "price"; "total_discount";
    "title"; "variant_title"; "name"; "sku"; "vendor"; "gift_card";
    "taxable"; "fulfillment_service"; "requires_shipping";
    "variant_inventory_management"; "pre_tax_price"; "properties";
    "product_exists"; "fulfillable_quantity"; "grams"; "fulfillment_status";
    "tax_lines"; "origin_location"; "destination_location";
    "applied_discount"; "discount_allocations" ].

(** The [properties] member of a line-item object, as the decoder reads
    it. *)
Definition propertiesOf (ms : list (string * value)) : option value :=
  member fieldNames "properties" ms.


(** A blank property pair: no name and a [nil] value. *)
Definition blank (p : NoteAttribute) : bool :=
  String.eqb (Name p) EmptyString && isNilAny (Value p).

(** *** The shapes of a properties member, read off the JSON alone *)

(** A value a [string] field takes without a type error. *)
Definition fitsString (v : value) : bool :=
  match v with
  | JString _ | JNull => true
  | _ => false
  end.

Definition propertyMember (m : string * value) : bool :=
  match findField noteAttributeFields (fst m) with
  | Some field =>
      if String.eqb field "name" then fitsString (snd m)
      else fitsInterface (snd m)
  | None => true
  end.

(** A property object: an object whose [name] members are strings (or null)
    and whose [value] members fit an [interface{}]; the text [null] counts as
    one, with no member at all. *)
Definition propertyObject (v : value) : bool :=
  match v with
  | JNull => true
  | JObject ms => forallb propertyMember ms
  | _ => false
  end.

(** The two shapes the decoder recognises: an array of property objects, or
    one property object. *)
Definition recognized (raw : value) : bool :=
  match raw with
  | JArray vs => forallb propertyObject vs
  | _ => propertyObject raw
  end.

(** The name a property object gives: that of its last [name] member that
    is a string. *)
Fixpoint nameIn (ms : list (string * value)) : option string :=
  match ms with
  | [] => None
  | (key, v) :: rest =>
      match nameIn rest with
      | Some s => Some s
      | None =>
          match findField noteAttributeFields key, v with
          | Some field, JString s =>
              if String.eqb field "name" then Some s else None
          | _, _ => None
          end
      end
  end.

(** The (name, value) pair a property object spells: the name above, and
    its last [value] member as an [interface{}]. *)
Definition pairOf (v : value) : NoteAttribute :=
  match v with
  | JObject ms =>
      {| Name := match nameIn ms with
                 | Some s => s
                 | None => EmptyString
                 end;
         Value := match member noteAttributeFields "value" ms with
                  | Some x => fst (valueInterface x)
                  | None => AnyNil
                  end |}
  | _ => zeroNoteAttribute
  end.

(** The property sequence a recognised shape stands for: the pairs of the
    array in their order; for a single object its pair alone, or nothing when
    the pair is blank. *)
Definition canonicalProperties (raw : value) : slice NoteAttribute :=
  match raw with
  | JArray vs => Some (List.map pairOf vs)
  | _ => if blank (pairOf raw) then None else Some [pairOf raw]
  end.

Section LineItem.

(** [Fixed] holds the fields of a [LineItem] other than [Properties];
    [decodeField f name v] is the standard decode of the value [v] into the
    field called [name] of [f]; [encodeField f name] is the standard encoding
    of that field: left out ([omitempty]), a value, or an error. *)
Variable Fixed : Type.
Variable decodeField : Fixed -> string -> value -> Fixed * fieldOutcome.
Variable encodeField : Fixed -> string -> option value + error.

Record LineItem : Type := { fixed : Fixed; Properties : slice NoteAttribute }.

(** The anonymous struct [aux]: its own [Properties json.RawMessage] hides
    the [properties] field of the embedded [*alias], which points at the
    receiver. *)
Record auxLineItem : Type := { auxProperties : RawMessage; alias : LineItem }.

Definition setFixed (a : auxLineItem) (f : Fixed) : auxLineItem :=
  {| auxProperties := auxProperties a;
     alias := {| fixed := f; Properties := Properties (alias a) |} |}.

(** The members of an object stored into [aux], one after the other.  The
    result is the error [json.Unmarshal] returns: the one that stopped the
    decode, else the first one saved. *)
Fixpoint object_aux (ms : list (string * value)) (a : auxLineItem)
         (saved : option error) : auxLineItem * option error :=
  match ms with
  | [] => (a, saved)
  | (key, v) :: rest =>
      match findField fieldNames key with
      | Some field =>
          if String.eqb field "properties" then
            object_aux rest {| auxProperties := Some v; alias := alias a |} saved
          else
            match decodeField (fixed (alias a)) field v with
            | (f, Stored) => object_aux rest (setFixed a f) saved
            | (f, Saved e) =>
                object_aux rest (setFixed a f) (firstError saved (Some e))
            | (f, Failed e) => (setFixed a f, Some e)
            end
      | None => object_aux rest a saved
      end
  end.

Definition goAux : string := "struct { Properties json.RawMessage; *goshopify.alias }".

(** [err := json.Unmarshal(data, &aux)], with [aux] pointing at a struct
    whose [alias] is the receiver.  The pointer comes back [nil] from the
    text [null]. *)
Definition Unmarshal_aux (data : text) (li : LineItem)
  : option auxLineItem * option error :=
  let a := {| auxProperties := None; alias := li |} in
  match data with
  | Invalid => (Some a, Some SyntaxError)
  | Valid JNull => (None, None)
  | Valid (JObject ms) =>
      let '(a', err) := object_aux ms a None in (Some a', err)
  | Valid v => (Some a, Some (UnmarshalTypeError (describe v) goAux))
  end.

Definition setProperties (li : LineItem) (p : slice NoteAttribute) : LineItem :=
  {| fixed := fixed li; Properties := p |}.

(** The two branches of [LineItem.UnmarshalJSON] that read a non-empty
    [aux.Properties] (lines 439 to 457): the receiver as they leave it and
    the error they return. *)
Definition resolveProperties (li : LineItem) (raw : value)
  : LineItem * option error :=
  if Ascii.eqb (firstByte raw) "[" then
    match Unmarshal_NoteAttributes raw with
    | (_, Some err) => (li, Some err)
    | (p, None) => (setProperties li p, None)
    end
  else
    match Unmarshal_NoteAttribute raw with
    | (_, Some err) => (li, Some err)
    | (p, None) =>
        if String.eqb (Name p) EmptyString && isNilAny (Value p)
        then (setProperties li None, None)
        else (setProperties li (Some [p]), None)
    end.

(** [LineItem.UnmarshalJSON]: the receiver as the call leaves it, and the
    returned error. *)
Definition UnmarshalJSON (li : LineItem) (data : text)
  : outcome (LineItem * option error) :=
  match Unmarshal_aux data li with
  | (Some a, Some err) => Returned (alias a, Some err)
  | (None, Some err) => Returned (li, Some err)
  | (None, None) => Panicked (* aux.Properties on a nil aux *)
  | (Some a, None) =>
      match auxProperties a with
      | None => Returned (alias a, None) (* len(aux.Properties) == 0 *)
      | Some raw => Returned (resolveProperties (alias a) raw)
      end
  end.

(** [LineItem] has no [MarshalJSON]: [json.Marshal] encodes it field by field
    in the order of the struct.  [Properties] carries [omitempty] (line 390):
    a slice of length 0, nil or not, is left out.  The encoding of a
    non-empty [[]NoteAttribute] is [encodeProperties]. *)
Variable encodeProperties : list NoteAttribute -> value + error.

Definition marshalField (li : LineItem) (name : string) : option value + error :=
  if String.eqb name "properties" then
    match elems (Properties li) with
    | [] => inl None
    | p :: ps =>
        match encodeProperties (p :: ps) with
        | inl v => inl (Some v)
        | inr e => inr e
        end
    end
  else encodeField (fixed li) name.

Fixpoint marshalFields (names : list string) (li : LineItem)
  : list (string * value) + error :=
  match names with
  | [] => inl []
  | name :: rest =>
      match marshalField li name with
      | inr e => inr e
      | inl o =>
          match marshalFields rest li with
          | inr e => inr e
          | inl ms =>
              inl match o with
                  | None => ms
                  | Some v => (name, v) :: ms
                  end
          end
      end
  end.

(** [json.Marshal(li)]: the value the returned text spells, or the error. *)
Definition Marshal (li : LineItem) : value + error :=
  match marshalFields fieldNames li with
  | inl ms => inl (JObject ms)
  | inr e => inr e
  end.

End LineItem.

Arguments fixed {Fixed} l.
Arguments Properties {Fixed} l.
Arguments Build_LineItem {Fixed} _ _.
Arguments auxProperties {Fixed} a.
Arguments alias {Fixed} a.
Arguments Build_auxLineItem {Fixed} _ _.
Arguments setFixed {Fixed} a f.
Arguments setProperties {Fixed} li p.
Arguments object_aux {Fixed} decodeField ms a saved.
Arguments Unmarshal_aux {Fixed} decodeField data li.
Arguments resolveProperties {Fixed} li raw.
Arguments UnmarshalJSON {Fixed} decodeField li data.
Arguments marshalField {Fixed} encodeField encodeProperties li name.
Arguments marshalFields {Fixed} encodeField encodeProperties names li.
Arguments Marshal {Fixed} encodeField encodeProperties li.

End LineItemJSON.

(** ** ShippingLines *)

Module ShippingLinesJSON.
Import Strconv Fmt Decode.

(** The JSON names of the fields of [ShippingLines], in the order of the
    struct (order.go, lines 490 to 503). *)
Definition fieldNames : list string :=
  [ "id"; "title"; "price"; "price_set"; "discounted_price";
    "discounted_price_set"; "code"; "source"; "phone";
    "requested_fulfillment_service_id"; "delivery_category";
    "carrier_identifier"; "tax_lines"; "handle" ].

Definition idField : string := "requested_fulfillment_service_id".

(** The [requested_fulfillment_service_id] member of a shipping-line object,
    as the decoder reads it. *)
Definition requestedOf (ms : list (string * value)) : option value :=
  member fieldNames idField ms.


Section ShippingLines.

(** [Fixed] holds the fields of a [ShippingLines] other than
    [RequestedFulfillmentServiceId]; [decodeField f name v] is the standard
    decode of the value [v] into the field called [name] of [f]. *)
Variable Fixed : Type.
Variable decodeField : Fixed -> string -> value -> Fixed * fieldOutcome.

Record ShippingLines : Type := {
  fixed : Fixed;
  RequestedFulfillmentServiceId : string
}.

(** The anonymous struct [aux]: the embedded [*alias] points at the
    receiver, and its [requested_fulfillment_service_id] is hidden by the
    [interface{}] field of [aux] itself. *)
Record auxShippingLines : Type := {
  alias : ShippingLines;
  auxRequestedFulfillmentServiceId : any
}.

Definition setFixed (a : auxShippingLines) (f : Fixed) : auxShippingLines :=
  {| alias := {| fixed := f;
                 RequestedFulfillmentServiceId :=
                   RequestedFulfillmentServiceId (alias a) |};
     auxRequestedFulfillmentServiceId := auxRequestedFulfillmentServiceId a |}.

(** The members of an object stored into [aux], one after the other. *)
Fixpoint object_aux (ms : list (string * value)) (a : auxShippingLines)
         (saved : option error) : auxShippingLines * option error :=
  match ms with
  | [] => (a, saved)
  | (key, v) :: rest =>
      match findField fieldNames key with
      | Some field =>
          if String.eqb field idField then
            let '(x, e) :=
              storeInterface (auxRequestedFulfillmentServiceId a) v in
            object_aux rest
              {| alias := alias a; auxRequestedFulfillmentServiceId := x |}
              (firstError saved e)
          else
            match decodeField (fixed (alias a)) field v with
            | (f, Stored) => object_aux rest (setFixed a f) saved
            | (f, Saved e) =>
                object_aux rest (setFixed a f) (firstError saved (Some e))
            | (f, Failed e) => (setFixed a f, Some e)
            end
      | None => object_aux rest a saved
      end
  end.

Definition goAux : string :=
  "struct { *goshopify.alias; RequestedFulfillmentServiceId interface {} }".

(** [err := json.Unmarshal(data, &aux)]. *)
Definition Unmarshal_aux (data : text) (sl : ShippingLines)
  : option auxShippingLines * option error :=
  let a := {| alias := sl; auxRequestedFulfillmentServiceId := AnyNil |} in
  match data with
  | Invalid => (Some a, Some SyntaxError)
  | Valid JNull => (None, None)
  | Valid (JObject ms) =>
      let '(a', err) := object_aux ms a None in (Some a', err)
  | Valid v => (Some a, Some (UnmarshalTypeError (describe v) goAux))
  end.

Definition setRequestedFulfillmentServiceId (sl : ShippingLines) (s : string)
  : ShippingLines :=
  {| fixed := fixed sl; RequestedFulfillmentServiceId := s |}.

(** [ShippingLines.UnmarshalJSON]: the receiver as the call leaves it, and
    the returned error. *)
Definition UnmarshalJSON (sl : ShippingLines) (data : text)
  : outcome (ShippingLines * option error) :=
  match Unmarshal_aux data sl with
  | (Some a, Some err) => Returned (alias a, Some err)
  | (None, Some err) => Returned (sl, Some err)
  | (None, None) => Panicked (* aux.RequestedFulfillmentServiceId on a nil aux *)
  | (Some a, None) =>
      let sl := alias a in
      match auxRequestedFulfillmentServiceId a with
      | AnyNil =>
          Returned (setRequestedFulfillmentServiceId sl EmptyString, None)
      | x =>
          Returned (setRequestedFulfillmentServiceId sl (Sprintf_v x), None)
      end
  end.

End ShippingLines.

Arguments fixed {Fixed} s.
Arguments RequestedFulfillmentServiceId {Fixed} s.
Arguments Build_ShippingLines {Fixed} _ _.
Arguments alias {Fixed} a.
Arguments auxRequestedFulfillmentServiceId {Fixed} a.
Arguments Build_auxShippingLines {Fixed} _ _.
Arguments setFixed {Fixed} a f.
Arguments setRequestedFulfillmentServiceId {Fixed} sl s.
Arguments object_aux {Fixed} decodeField ms a saved.
Arguments Unmarshal_aux {Fixed} decodeField data sl.
Arguments UnmarshalJSON {Fixed} decodeField sl data.

End ShippingLinesJSON.

(** ** Stand-ins for the collaborators *)

Module Sample.
Import Decode.

(** A fetch collaborator that plays back a list of replies, one per call,
    whatever it is asked; records and page options are numbers, an options
    value is [nil] or a [*ListOptions]. *)
Definition reply : Type := Walker.clientReply nat nat string.

Definition playback (w : list reply) (ctx : unit) (path : string)
           (options : option nat) : list reply * reply :=
  match w with
  | [] => ([], {| Walker.replyOrders := None;
                  Walker.replyPagination := None;
                  Walker.replyErr := Some "no reply left" |})
  | r :: rest => (rest, r)
  end.

Definition page (records : list nat) (next : option nat) : reply :=
  {| Walker.replyOrders := Some records;
     Walker.replyPagination := Some {| Walker.NextPageOptions := next |};
     Walker.replyErr := None |}.

Definition failure (message : string) : reply :=
  {| Walker.replyOrders := None;
     Walker.replyPagination := None;
     Walker.replyErr := Some message |}.

(** Two of the fixed-shape fields, enough to run the decoders: [id] (a
    [uint64]) and [title] (a [string]); the other fields are read and
    dropped. *)
Record fields : Type := { Id : Z; Title : string }.

Definition zero : fields := {| Id := 0; Title := EmptyString |}.

Definition goUint64 : string := "uint64".

Definition decodeField (f : fields) (name : string) (v : value)
  : fields * fieldOutcome :=
  if String.eqb name "id" then
    match v with
    | JNull => (f, Stored)
    | JNumber (Decimal.Decimal (Decimal.Pos u) Decimal.Nil) =>
        if (Z.of_uint u <? 2 ^ 64)%Z
        then ({| Id := Z.of_uint u; Title := Title f |}, Stored)
        else (f, Saved (UnmarshalTypeError
                          (OfNumberLiteral (Decimal.Decimal (Decimal.Pos u) Decimal.Nil))
                          goUint64))
    | JNumber literal =>
        (f, Saved (UnmarshalTypeError (OfNumberLiteral literal) goUint64))
    | _ => (f, Saved (UnmarshalTypeError (describe v) goUint64))
    end
  else if String.eqb name "title" then
    match storeString (Title f) v with
    | (s, None) => ({| Id := Id f; Title := s |}, Stored)
    | (s, Some e) => ({| Id := Id f; Title := s |}, Saved e)
    end
  else (f, Stored).

Definition encodeField (f : fields) (name : string) : option value + error :=
  if String.eqb name "id" then
    inl (if (Id f =? 0)%Z then None else Some (JInt (Id f)))
  else if String.eqb name "title" then
    inl (if String.eqb (Title f) EmptyString then None else Some (JString (Title f)))
  else inl None.

(** No encoder for non-empty property slices is needed where this is
    used. *)
Definition encodeProperties (ps : list LineItemJSON.NoteAttribute) : value + error :=
  inr (FieldError "not encoded here").

Definition LineItem : Type := LineItemJSON.LineItem fields.
Definition ShippingLines : Type := ShippingLinesJSON.ShippingLines fields.

Definition freshLineItem : LineItem :=
  {| LineItemJSON.fixed := zero; LineItemJSON.Properties := None |}.

Definition freshShippingLines : ShippingLines :=
  {| ShippingLinesJSON.fixed := zero;
     ShippingLinesJSON.RequestedFulfillmentServiceId := EmptyString |}.

End Sample.

(** ** The other operations of the order service *)

Module Service.
Local Open Scope string_scope.

Section Listing.

Variables Order ListOptions Iface Ctx GoError World : Type.
Variable clientListWithPagination :
  World -> Ctx -> string -> Iface
  -> World * Walker.clientReply Order ListOptions GoError.

(** [OrderServiceOp.List]: one call of [ListWithPagination]; the pagination
    is dropped unread. *)
Definition List (w : World) (ctx : Ctx) (options : Iface)
  : World * (slice Order * option GoError) :=
  let '(w', (orders, _, err)) :=
    Walker.ListWithPagination clientListWithPagination w ctx options in
  match err with
  | Some e => (w', (None, Some e))
  | None => (w', (orders, None))
  end.

End Listing.

Arguments List {Order ListOptions Iface Ctx GoError World}
  clientListWithPagination w ctx options.

(** [%d] of a [uint64]: its decimal digits. *)
Definition Sprintf_d (n : N) : string := NilEmpty.string_of_uint (N.to_uint n).

(** The paths handed to the client. *)

(** [fmt.Sprintf("%s.json", ordersBasePath)]. *)
Definition collectionPath : string := Walker.ordersBasePath ++ ".json".

(** [fmt.Sprintf("%s/count.json", ordersBasePath)]. *)
Definition countPath : string := Walker.ordersBasePath ++ "/count.json".

(** [fmt.Sprintf("%s/%d.json", ordersBasePath, orderId)]. *)
Definition orderPath (orderId : N) : string :=
  Walker.ordersBasePath ++ "/" ++ Sprintf_d orderId ++ ".json".

(** [fmt.Sprintf("%s/%d/cancel.json", ordersBasePath, orderId)]. *)
Definition cancelPath (orderId : N) : string :=
  Walker.ordersBasePath ++ "/" ++ Sprintf_d orderId ++ "/cancel.json".

(** [fmt.Sprintf("%s/%d/close.json", ordersBasePath, orderId)]. *)
Definition closePath (orderId : N) : string :=
  Walker.ordersBasePath ++ "/" ++ Sprintf_d orderId ++ "/close.json".

(** [fmt.Sprintf("%s/%d/open.json", ordersBasePath, orderId)]. *)
Definition openPath (orderId : N) : string :=
  Walker.ordersBasePath ++ "/" ++ Sprintf_d orderId ++ "/open.json".

Section Verbs.

(** [Id] reads [order.Id]; [Iface] is the type of the values an
    [interface{}] argument can hold, [nilIface] the [nil] one and
    [orderResource order] the value [OrderResource{Order: &order}]. *)
Variables Order Iface Ctx GoError World : Type.
Variable Id : Order -> N.
Variable nilIface : Iface.
Variable orderResource : Order -> Iface.

(** The verbs of the shared client (outside [order.go]).  [Get], [Post] and
    [Put] fill the [*OrderResource] they are handed: what comes back here is
    its [Order] pointer after the call, and the error. *)
Record Client : Type := {
  clientCount : World -> Ctx -> string -> Iface -> World * (Z * option GoError);
  clientGet :
    World -> Ctx -> string -> Iface -> World * (option Order * option GoError);
  clientPost :
    World -> Ctx -> string -> Iface -> World * (option Order * option GoError);
  clientPut :
    World -> Ctx -> string -> Iface -> World * (option Order * option GoError);
  clientDelete : World -> Ctx -> string -> World * option GoError
}.

Variable client : Client.

(** [OrderServiceOp.Count]. *)
Definition Count (w : World) (ctx : Ctx) (options : Iface)
  : World * (Z * option GoError) :=
  let path := countPath in
  clientCount client w ctx path options.

(** [OrderServiceOp.Get]. *)
Definition Get (w : World) (ctx : Ctx) (orderId : N) (options : Iface)
  : World * (option Order * option GoError) :=
  let path := orderPath orderId in
  clientGet client w ctx path options.

(** [OrderServiceOp.Create]. *)
Definition Create (w : World) (ctx : Ctx) (order : Order)
  : World * (option Order * option GoError) :=
  let path := collectionPath in
  let wrappedData := orderResource order in
  clientPost client w ctx path wrappedData.

(** [OrderServiceOp.Update]. *)
Definition Update (w : World) (ctx : Ctx) (order : Order)
  : World * (option Order * option GoError) :=
  let path := orderPath (Id order) in
  let wrappedData := orderResource order in
  clientPut client w ctx path wrappedData.

(** [OrderServiceOp.Cancel]. *)
Definition Cancel (w : World) (ctx : Ctx) (orderId : N) (options : Iface)
  : World * (option Order * option GoError) :=
  let path := cancelPath orderId in
  clientPost client w ctx path options.

(** [OrderServiceOp.Close]. *)
Definition Close (w : World) (ctx : Ctx) (orderId : N)
  : World * (option Order * option GoError) :=
  let path := closePath orderId in
  clientPost client w ctx path nilIface.

(** [OrderServiceOp.Open]. *)
Definition Open (w : World) (ctx : Ctx) (orderId : N)
  : World * (option Order * option GoError) :=
  let path := openPath orderId in
  clientPost client w ctx path nilIface.

(** [OrderServiceOp.Delete]. *)
Definition Delete (w : World) (ctx : Ctx) (orderId : N)
  : World * option GoError :=
  let path := orderPath orderId in
  clientDelete client w ctx path.

End Verbs.

Arguments clientCount {Order Iface Ctx GoError World} c.
Arguments clientGet {Order Iface Ctx GoError World} c.
Arguments clientPost {Order Iface Ctx GoError World} c.
Arguments clientPut {Order Iface Ctx GoError World} c.
Arguments clientDelete {Order Iface Ctx GoError World} c.
Arguments Build_Client {Order Iface Ctx GoError World} _ _ _ _ _.
Arguments Count {Order Iface Ctx GoError World} client w ctx options.
Arguments Get {Order Iface Ctx GoError World} client w ctx orderId options.
Arguments Create {Order Iface Ctx GoError World} orderResource client w ctx order.
Arguments Update {Order Iface Ctx GoError World} Id orderResource client w ctx order.
Arguments Cancel {Order Iface Ctx GoError World} client w ctx orderId options.
Arguments Close {Order Iface Ctx GoError World} nilIface client w ctx orderId.
Arguments Open {Order Iface Ctx GoError World} nilIface client w ctx orderId.
Arguments Delete {Order Iface Ctx GoError World} client w ctx orderId.

End Service.

(** ** Records with an [UnmarshalJSON] inside a larger value *)

Module Elements.
Import Decode.

Section Elements.

(** [T] is a struct type whose pointer has an [UnmarshalJSON] method,
    [zero] its zero value, [goSlice] the name of [[]T]. *)
Variable T : Type.
Variable zero : T.
Variable UnmarshalJSON : T -> text -> outcome (T * option error).
Variable goSlice : string.

(** The elements of an array stored into a nil [[]T] ([Order.LineItems],
    line 301; [Order.ShippingLines], line 302): each element, the text [null]
    included, is handed to the [UnmarshalJSON] of a fresh zero [T]; the first
    error stops the decode, with the element it came from still in the
    slice. *)
Fixpoint array_Unmarshaler (vs : list value) : outcome (list T * option error) :=
  match vs with
  | [] => Returned ([], None)
  | v :: rest =>
      match UnmarshalJSON zero (Valid v) with
      | Panicked => Panicked
      | Returned (t, Some e) => Returned ([t], Some e)
      | Returned (t, None) =>
          match array_Unmarshaler rest with
          | Panicked => Panicked
          | Returned (ts, err) => Returned (t :: ts, err)
          end
      end
  end.

(** A value stored into a nil [[]T] field: the slice as the decode leaves it
    and how the decode of the enclosing struct goes on. *)
Definition value_slice (v : value) : outcome (slice T * fieldOutcome) :=
  match v with
  | JNull => Returned (None, Stored)
  | JArray vs =>
      match array_Unmarshaler vs with
      | Panicked => Panicked
      | Returned (ts, None) => Returned (Some ts, Stored)
      | Returned (ts, Some e) => Returned (Some ts, Failed e)
      end
  | _ => Returned (None, Saved (UnmarshalTypeError (describe v) goSlice))
  end.

(** A value stored into a [*T] field ([RefundLineItem.LineItem], line 603):
    [null] sets the pointer to [nil] and calls nothing; any other value goes
    to the [UnmarshalJSON] of what the pointer points to, a fresh zero [T]
    when it is [nil]. *)
Definition value_pointer (old : option T) (v : value)
  : outcome (option T * fieldOutcome) :=
  match v with
  | JNull => Returned (None, Stored)
  | _ =>
      let target := match old with
                    | Some t => t
                    | None => zero
                    end in
      match UnmarshalJSON target (Valid v) with
      | Panicked => Panicked
      | Returned (t, None) => Returned (Some t, Stored)
      | Returned (t, Some e) => Returned (Some t, Failed e)
      end
  end.

End Elements.

Arguments array_Unmarshaler {T} zero UnmarshalJSON vs.
Arguments value_slice {T} zero UnmarshalJSON goSlice v.
Arguments value_pointer {T} zero UnmarshalJSON old v.

End Elements.

(** ** Encoding *)

Module Encode.
Import Fmt Decode.

(** *** Strings *)

Definition between (lo hi : nat) (c : ascii) : bool :=
  let n := nat_of_ascii c in (lo <=? n)%nat && (n <=? hi)%nat.

(** A continuation byte. *)
Definition continues (c : ascii) : bool := between 128 191 c.

(** The encoding of U+FFFD. *)
Definition RuneError : string :=
  String "239" (String "191" (String "189" EmptyString)).

Definition twoBytes (c c1 : ascii) : bool := between 194 223 c && continues c1.

Definition threeBytes (c c1 c2 : ascii) : bool :=
  ((between 224 224 c && between 160 191 c1)
   || (between 225 236 c && continues c1)
   || (between 237 237 c && between 128 159 c1)
   || (between 238 239 c && continues c1))
  && continues c2.

Definition fourBytes (c c1 c2 c3 : ascii) : bool :=
  ((between 240 240 c && between 144 191 c1)
   || (between 241 243 c && continues c1)
   || (between 244 244 c && between 128 143 c1))
  && continues c2 && continues c3.

(** The string a JSON string written by the encoder spells: the bytes
    of [s], with every byte that starts no well-formed UTF-8 sequence
    replaced by U+FFFD. *)
Fixpoint toValidUTF8 (s : string) : string :=
  match s with
  | EmptyString => EmptyString
  | String c rest =>
      if between 0 127 c then String c (toValidUTF8 rest)
      else
        match rest with
        | String c1 rest1 =>
            if twoBytes c c1 then String c (String c1 (toValidUTF8 rest1))
            else
              match rest1 with
              | String c2 rest2 =>
                  if threeBytes c c1 c2 then
                    String c (String c1 (String c2 (toValidUTF8 rest2)))
                  else
                    match rest2 with
                    | String c3 rest3 =>
                        if fourBytes c c1 c2 c3 then
                          String c (String c1 (String c2 (String c3
                            (toValidUTF8 rest3))))
                        else String.append RuneError (toValidUTF8 rest)
                    | EmptyString => String.append RuneError (toValidUTF8 rest)
                    end
              | EmptyString => String.append RuneError (toValidUTF8 rest)
              end
        | EmptyString => RuneError
        end
  end.

Definition encodeString (s : string) : value := JString (toValidUTF8 s).

(** *** Property pairs *)

Section NoteAttributes.
Import LineItemJSON.

(** [encodeAny x] is the standard encoding of the value a non-nil
    [interface{}] holds. *)
Variable encodeAny : any -> value + error.

(** A [NoteAttribute] is encoded field by field; both fields carry
    [omitempty] (lines 467 and 468): an empty name and a nil value are left
    out. *)
Definition marshal_NoteAttribute (p : NoteAttribute) : value + error :=
  let name :=
    if String.eqb (Name p) EmptyString then []
    else [("name", encodeString (Name p))] in
  match Value p with
  | AnyNil => inl (JObject name)
  | x =>
      match encodeAny x with
      | inl j => inl (JObject (name ++ [("value", j)]))
      | inr e => inr e
      end
  end.

Fixpoint marshal_elements (ps : list NoteAttribute) : list value + error :=
  match ps with
  | [] => inl []
  | p :: rest =>
      match marshal_NoteAttribute p with
      | inr e => inr e
      | inl j =>
          match marshal_elements rest with
          | inr e => inr e
          | inl js => inl (j :: js)
          end
      end
  end.

(** The encoding of a non-empty [[]NoteAttribute]: an array, element by
    element. *)
Definition marshal_NoteAttributes (ps : list NoteAttribute) : value + error :=
  match marshal_elements ps with
  | inl js => inl (JArray js)
  | inr e => inr e
  end.

End NoteAttributes.

(** *** Shipping lines *)

Section ShippingLines.
Import ShippingLinesJSON.

Variable Fixed : Type.
Variable encodeField : Fixed -> string -> option value + error.

(** [ShippingLines] has no [MarshalJSON]: it is encoded field by field in
    the order of the struct.  [RequestedFulfillmentServiceId] is a [string]
    with [omitempty] (line 499). *)
Definition marshalField (sl : ShippingLines Fixed) (name : string)
  : option value + error :=
  if String.eqb name idField then
    if String.eqb (RequestedFulfillmentServiceId sl) EmptyString then inl None
    else inl (Some (encodeString (RequestedFulfillmentServiceId sl)))
  else encodeField (fixed sl) name.

Fixpoint marshalFields (names : list string) (sl : ShippingLines Fixed)
  : list (string * value) + error :=
  match names with
  | [] => inl []
  | name :: rest =>
      match marshalField sl name with
      | inr e => inr e
      | inl o =>
          match marshalFields rest sl with
          | inr e => inr e
          | inl ms =>
              inl match o with
                  | None => ms
                  | Some v => (name, v) :: ms
                  end
          end
      end
  end.

(** [json.Marshal(sl)]: the value the returned text spells, or the error. *)
Definition Marshal (sl : ShippingLines Fixed) : value + error :=
  match marshalFields fieldNames sl with
  | inl ms => inl (JObject ms)
  | inr e => inr e
  end.

End ShippingLines.

Arguments marshalField {Fixed} encodeField sl name.
Arguments marshalFields {Fixed} encodeField names sl.
Arguments Marshal {Fixed} encodeField sl.

End Encode.

(** ** More stand-ins *)

Module Stub.
Import Fmt Decode.

(** A fetch collaborator whose every page names a successor: the world
    counts the calls, page [n] holds the record [n]. *)
Definition endless (w : nat) (ctx : unit) (path : string) (options : option nat)
  : nat * Sample.reply :=
  (S w, Sample.page [w] (Some (S w))).

(** An encoder for the strings, booleans and nils an [interface{}] can
    hold. *)
Definition encodeAny (x : any) : value + error :=
  match x with
  | AnyNil => inl JNull
  | AnyBool b => inl (JBool b)
  | AnyString s => inl (Encode.encodeString s)
  | _ => inr (FieldError "not encoded here")
  end.

End Stub.

(** * Part II: lemmas and theorems *)

(** ** Slices *)

Module SliceFacts.

Lemma append_Some {A} (l : list A) (t : slice A) :
  append (Some l) t = Some (l ++ elems t).
Proof.
  unfold append. destruct (elems t); simpl; now rewrite ?app_nil_r.
Qed.

End SliceFacts.

(** ** The pagination walker *)

Module WalkerProofs.
Import SliceFacts.

Section WalkerProofs.

Variables Order ListOptions Iface Ctx GoError World : Type.
Variable toIface : ListOptions -> Iface.
Variable client :
  World -> Ctx -> string -> Iface
  -> World * Walker.clientReply Order ListOptions GoError.

Local Abbreviation ListAll := (Walker.ListAll toIface client).
Local Abbreviation ListAll_loop := (Walker.ListAll_loop toIface client).
Local Abbreviation pages := (Walker.pages toIface client).
Local Abbreviation nextOptionsOf := (Walker.nextOptionsOf toIface).
Local Abbreviation path := (Walker.ordersBasePath ++ ".json")%string.

(** One turn of the loop on a page that names a successor. *)
Lemma loop_step_more fuel w ctx o acc called w1 recs next :
  client w ctx path o
  = (w1, {| Walker.replyOrders := recs;
            Walker.replyPagination := Some {| Walker.NextPageOptions := Some next |};
            Walker.replyErr := None |}) ->
  ListAll_loop (S fuel) w ctx o (Some acc) called
  = ListAll_loop fuel w1 ctx (toIface next) (Some (acc ++ elems recs)) (o :: called).
Proof.
  intros H. simpl. unfold Walker.ListWithPagination. rewrite H. simpl.
  now rewrite append_Some.
Qed.

(** A run of pages with successors is walked in as many turns; the
    collector gains their records and the options values passed are, in
    order, the first one and then each page's successor. *)
Lemma loop_pages ctx ps w o w1 o1 :
  pages ctx w o ps w1 o1 ->
  forall fuel acc called,
  exists called',
    ListAll_loop (List.length ps + fuel) w ctx o (Some acc) called
    = ListAll_loop fuel w1 ctx o1 (Some (acc ++ Walker.recordsOf ps)) called'
    /\ rev called' ++ [o1] = rev called ++ o :: nextOptionsOf ps.
Proof.
  induction 1 as [w o | w o recs next w1 ps w' o' Hc Hp IH]; intros fuel acc called.
  - exists called. simpl. unfold Walker.recordsOf. simpl.
    now rewrite app_nil_r.
  - destruct (IH fuel (acc ++ elems recs) (o :: called)) as (called' & Hl & Hc').
    exists called'. split.
    + change (List.length ((recs, next) :: ps) + fuel) with (S (List.length ps + fuel)).
      rewrite (loop_step_more _ _ _ _ _ _ _ _ _ Hc), Hl.
      unfold Walker.recordsOf. simpl. now rewrite app_assoc.
    + rewrite Hc'. simpl. now rewrite <- app_assoc.
Qed.

(** What a returning run of the loop went through. *)
Lemma loop_returned ctx fuel :
  forall w o acc called r recs err,
  ListAll_loop fuel w ctx o (Some acc) called = Some r ->
  Walker.result r = Returned (recs, err) ->
  exists ps w1 o1 reply,
    pages ctx w o ps w1 o1
    /\ client w1 ctx path o1 = (Walker.world r, reply)
    /\ Walker.calls r = rev called ++ o :: nextOptionsOf ps
    /\ match Walker.replyErr reply with
       | Some e => err = Some e /\ recs = Some (acc ++ Walker.recordsOf ps)
       | None =>
           err = None
           /\ Walker.replyPagination reply
              = Some {| Walker.NextPageOptions := None |}
           /\ recs = Some (acc ++ Walker.recordsOf ps
                               ++ elems (Walker.replyOrders reply))
       end.
Proof.
  induction fuel as [|fuel IH]; intros w o acc called r recs err Hrun Hres.
  - discriminate.
  - simpl in Hrun. unfold Walker.ListWithPagination in Hrun.
    destruct (client w ctx path o) as [w' [ro rp re]] eqn:Hc. simpl in Hrun.
    destruct re as [e|].
    + injection Hrun as <-. simpl in Hres. injection Hres as <- <-.
      exists [], w, o, {| Walker.replyOrders := ro; Walker.replyPagination := rp;
                          Walker.replyErr := Some e |}.
      repeat split; try assumption; try constructor.
      unfold Walker.recordsOf. simpl. now rewrite app_nil_r.
    + destruct rp as [[[next|]]|].
      * rewrite append_Some in Hrun.
        destruct (IH _ _ _ _ _ _ _ Hrun Hres) as (ps & w1 & o1 & reply & Hp & Hc1 & Hcalls & Hend).
        exists ((ro, next) :: ps), w1, o1, reply.
        split; [econstructor; eassumption|].
        split; [assumption|].
        split.
        { rewrite Hcalls. simpl. now rewrite <- app_assoc. }
        { unfold Walker.recordsOf in *. simpl.
          destruct (Walker.replyErr reply).
          - destruct Hend as [-> ->]. now rewrite <- !app_assoc.
          - destruct Hend as (-> & Hpg & ->). repeat split; trivial.
            now rewrite <- !app_assoc. }
      * injection Hrun as <-. simpl in Hres. injection Hres as <- <-.
        exists [], w, o, {| Walker.replyOrders := ro;
                            Walker.replyPagination := Some {| Walker.NextPageOptions := None |};
                            Walker.replyErr := None |}.
        repeat split; try assumption; try constructor.
        rewrite append_Some. reflexivity.
      * injection Hrun as <-. discriminate.
Qed.

(** C1.  When the fetches from the initial options go through [ps], pages
    that each name a successor, and the fetch after them succeeds with the
    records [last] and no successor, [ListAll] (given more turns than there
    are pages in [ps]) returns the records of all these pages, concatenated
    in page order, and no error; the first fetch was passed the initial
    options and every later one the successor named by the page before it. *)
Theorem ListAll_walks_every_page fuel ctx w o ps w1 o1 w2 last :
  pages ctx w o ps w1 o1 ->
  client w1 ctx path o1
  = (w2, {| Walker.replyOrders := last;
            Walker.replyPagination := Some {| Walker.NextPageOptions := None |};
            Walker.replyErr := None |}) ->
  List.length ps < fuel ->
  ListAll fuel w ctx o
  = Some {| Walker.world := w2;
            Walker.calls := o :: nextOptionsOf ps;
            Walker.result :=
              Returned (Some (Walker.recordsOf ps ++ elems last), None) |}.
Proof.
  intros Hp Hlast Hfuel.
  replace fuel with (List.length ps + S (fuel - S (List.length ps))) by lia.
  unfold Walker.ListAll.
  destruct (loop_pages _ _ _ _ _ _ Hp (S (fuel - S (List.length ps))) [] [])
    as (called' & -> & Hcalls).
  simpl. unfold Walker.ListWithPagination. rewrite Hlast. simpl.
  rewrite append_Some. simpl in Hcalls. now rewrite Hcalls.
Qed.

(** C2.  When the fetches from the initial options go through [ps], pages
    that each name a successor, and the fetch after them returns the error
    [e], [ListAll] returns the records of [ps] together with [e]; the
    failing fetch is the last call it makes and the world is left as that
    fetch left it. *)
Theorem ListAll_stops_at_first_error fuel ctx w o ps w1 o1 w2 reply e :
  pages ctx w o ps w1 o1 ->
  client w1 ctx path o1 = (w2, reply) ->
  Walker.replyErr reply = Some e ->
  List.length ps < fuel ->
  ListAll fuel w ctx o
  = Some {| Walker.world := w2;
            Walker.calls := o :: nextOptionsOf ps;
            Walker.result := Returned (Some (Walker.recordsOf ps), Some e) |}.
Proof.
  intros Hp Hfail He Hfuel.
  replace fuel with (List.length ps + S (fuel - S (List.length ps))) by lia.
  unfold Walker.ListAll.
  destruct (loop_pages _ _ _ _ _ _ Hp (S (fuel - S (List.length ps))) [] [])
    as (called' & -> & Hcalls).
  simpl. unfold Walker.ListWithPagination. rewrite Hfail, He. simpl.
  simpl in Hcalls. now rewrite Hcalls.
Qed.

(** C9.  Whenever [ListAll] returns, the sequence it returns is not nil: it
    is the collector, holding the records of the pages fetched before the
    fetch that ended the run (and that fetch's records when it succeeded).
    When the very first fetch fails it is the empty, non-nil slice, returned
    with that fetch's error. *)
Theorem ListAll_never_returns_nil fuel ctx w o r recs err :
  ListAll fuel w ctx o = Some r ->
  Walker.result r = Returned (recs, err) ->
  isNil recs = false
  /\ (exists ps w1 o1 reply,
        pages ctx w o ps w1 o1
        /\ client w1 ctx path o1 = (Walker.world r, reply)
        /\ match Walker.replyErr reply with
           | Some e => err = Some e /\ recs = Some (Walker.recordsOf ps)
           | None =>
               err = None
               /\ recs = Some (Walker.recordsOf ps
                               ++ elems (Walker.replyOrders reply))
           end)
  /\ (forall e, Walker.replyErr (snd (client w ctx path o)) = Some e ->
        recs = Some [] /\ err = Some e).
Proof.
  intros Hrun Hres.
  destruct (loop_returned _ _ _ _ _ _ _ _ _ Hrun Hres)
    as (ps & w1 & o1 & reply & Hp & Hc & _ & Hend).
  split; [|split].
  - destruct (Walker.replyErr reply); [destruct Hend as [_ ->] | destruct Hend as (_ & _ & ->)];
      reflexivity.
  - exists ps, w1, o1, reply. repeat split; trivial.
    destruct (Walker.replyErr reply); simpl in Hend; intuition.
  - intros e He. inversion Hp as [? ? | ? ? recs' next w' ps' ? ? Hfirst Hrest]; subst.
    + rewrite Hc in He. simpl in He. rewrite He in Hend. simpl in Hend.
      destruct Hend as [-> ->]. now split.
    + rewrite Hfirst in He. discriminate.
Qed.

End WalkerProofs.
End WalkerProofs.

(** ** encoding/json *)

Module DecodeFacts.
Import Strconv Fmt Decode.

Lemma firstError_None_r s : firstError s None = s.
Proof. now destruct s. Qed.

Lemma firstError_is_None a b : firstError a b = None -> a = None /\ b = None.
Proof. destruct a; simpl; [discriminate | auto]. Qed.

Lemma member_app names field ms1 ms2 :
  member names field (ms1 ++ ms2)
  = match member names field ms2 with
    | Some v => Some v
    | None => member names field ms1
    end.
Proof.
  induction ms1 as [|[key v] ms1 IH]; simpl.
  - now destruct (member names field ms2).
  - rewrite IH. now destruct (member names field ms2).
Qed.

Lemma findField_In names key field :
  findField names key = Some field -> In field names.
Proof.
  unfold findField. destruct (find (String.eqb key) names) eqn:E.
  - intros [= <-]. now apply find_some in E.
  - intros H. now apply find_some in H.
Qed.

Lemma findField_exact names key : In key names -> findField names key = Some key.
Proof.
  unfold findField. intros H.
  assert (find (String.eqb key) names = Some key) as ->; [|reflexivity].
  induction names as [|n names IH]; [contradiction|].
  simpl. destruct (String.eqb key n) eqn:E.
  - apply String.eqb_eq in E. now subst.
  - destruct H as [->|H]; [|auto]. now rewrite String.eqb_refl in E.
Qed.

Lemma storeInterface_error old v :
  snd (storeInterface old v) = snd (valueInterface v).
Proof.
  destruct v; try reflexivity. simpl. now destruct (convertNumber literal).
Qed.

Lemma storeInterface_fits old v :
  snd (valueInterface v) = None ->
  storeInterface old v = (fst (valueInterface v), None).
Proof.
  destruct v; simpl; intros H; try now rewrite (surjective_pairing (_ : any * option error)), H.
  - reflexivity.
  - reflexivity.
  - destruct (convertNumber literal); [reflexivity | discriminate].
  - reflexivity.
Qed.

Lemma fitsInterface_store old v :
  fitsInterface v = true -> storeInterface old v = (fst (valueInterface v), None).
Proof.
  unfold fitsInterface. intros H. apply storeInterface_fits.
  now destruct (snd (valueInterface v)).
Qed.

Lemma unfitInterface_store old v :
  fitsInterface v = false -> exists e, snd (storeInterface old v) = Some e.
Proof.
  unfold fitsInterface. rewrite storeInterface_error.
  destruct (snd (valueInterface v)); [eauto | discriminate].
Qed.

Lemma firstByte_array v : firstByte v = "["%char -> exists vs, v = JArray vs.
Proof.
  destruct v as [|[|]|literal|s|vs|ms]; simpl; try discriminate.
  - destruct (integerPart literal) as [u|u]; [destruct u|]; discriminate.
  - intros _. now exists vs.
Qed.

End DecodeFacts.

(** ** LineItem *)

Module LineItemProofs.
Import Strconv Fmt Decode DecodeFacts LineItemJSON.

(** *** Property objects *)

Lemma noteAttribute_field key field :
  findField noteAttributeFields key = Some field ->
  field = "name" \/ field = "value".
Proof.
  intros H. apply findField_In in H. simpl in H. intuition.
Qed.

Lemma fitsString_store old v :
  fitsString v = true ->
  storeString old v
  = (match v with JString s => s | _ => old end, None).
Proof. destruct v; simpl; intros H; try discriminate; reflexivity. Qed.

Lemma unfitString_store old v :
  fitsString v = false -> exists e, snd (storeString old v) = Some e.
Proof. destruct v; simpl; intros H; try discriminate; eauto. Qed.

(** The members of a property object leave the pair it spells, whatever was
    saved before stays saved. *)
Lemma object_NoteAttribute_fits ms :
  forallb propertyMember ms = true ->
  forall p saved,
  object_NoteAttribute ms p saved
  = ({| Name := match nameIn ms with
                | Some s => s
                | None => Name p
                end;
        Value := match member noteAttributeFields "value" ms with
                 | Some x => fst (valueInterface x)
                 | None => Value p
                 end |}, saved).
Proof.
  induction ms as [|[key v] rest IH]; intros Hall p saved.
  - now destruct p.
  - simpl in Hall. apply andb_prop in Hall as [Hm Hrest].
    unfold propertyMember in Hm. simpl in Hm.
    cbn [object_NoteAttribute nameIn member]. unfold storedIn.
    destruct (findField noteAttributeFields key) as [field|] eqn:F.
    + destruct (noteAttribute_field _ _ F) as [-> | ->]; simpl in Hm |- *.
      * rewrite (fitsString_store _ _ Hm), firstError_None_r, (IH Hrest). simpl.
        destruct (nameIn rest), (member noteAttributeFields "value" rest), v;
          try discriminate; reflexivity.
      * rewrite (fitsInterface_store _ _ Hm), firstError_None_r, (IH Hrest). simpl.
        destruct (nameIn rest), (member noteAttributeFields "value" rest), v;
          reflexivity.
    + rewrite (IH Hrest).
      now destruct (nameIn rest), (member noteAttributeFields "value" rest).
Qed.

Lemma object_NoteAttribute_saved ms :
  forall p e, snd (object_NoteAttribute ms p (Some e)) = Some e.
Proof.
  induction ms as [|[key v] rest IH]; intros p e; [reflexivity|].
  simpl. destruct (findField noteAttributeFields key) as [field|]; [|apply IH].
  destruct (String.eqb field "name").
  - destruct (storeString (Name p) v). apply IH.
  - destruct (storeInterface (Value p) v). apply IH.
Qed.

Lemma object_NoteAttribute_unfit ms :
  forallb propertyMember ms = false ->
  forall p saved, exists e, snd (object_NoteAttribute ms p saved) = Some e.
Proof.
  induction ms as [|[key v] rest IH]; intros Hall p saved; [discriminate|].
  simpl in Hall. apply andb_false_iff in Hall as [Hm | Hrest].
  - unfold propertyMember in Hm. simpl in Hm. simpl.
    destruct (findField noteAttributeFields key) as [field|]; [|discriminate].
    destruct (String.eqb field "name").
    + destruct (unfitString_store (Name p) _ Hm) as [e He].
      destruct (storeString (Name p) v) as [s e']. simpl in He. subst e'.
      destruct saved as [e0|]; simpl; rewrite object_NoteAttribute_saved; eauto.
    + destruct (unfitInterface_store (Value p) _ Hm) as [e He].
      destruct (storeInterface (Value p) v) as [a e']. simpl in He. subst e'.
      destruct saved as [e0|]; simpl; rewrite object_NoteAttribute_saved; eauto.
  - simpl. destruct (findField noteAttributeFields key) as [field|]; [|now apply IH].
    destruct (String.eqb field "name").
    + destruct (storeString (Name p) v). now apply IH.
    + destruct (storeInterface (Value p) v). now apply IH.
Qed.

(** A property object decodes, without error, to the pair it spells. *)
Lemma Unmarshal_NoteAttribute_fits v :
  propertyObject v = true -> Unmarshal_NoteAttribute v = (pairOf v, None).
Proof.
  destruct v; simpl; intros H; try discriminate; [reflexivity|].
  unfold Unmarshal_NoteAttribute. simpl.
  now rewrite (object_NoteAttribute_fits _ H).
Qed.

(** Anything else is an error. *)
Lemma Unmarshal_NoteAttribute_unfit v :
  propertyObject v = false -> exists e, snd (Unmarshal_NoteAttribute v) = Some e.
Proof.
  destruct v; simpl; intros H; try discriminate;
    unfold Unmarshal_NoteAttribute; simpl; eauto.
  now apply object_NoteAttribute_unfit.
Qed.

Lemma array_NoteAttribute_fits vs :
  forallb propertyObject vs = true ->
  forall saved, array_NoteAttribute vs saved = (List.map pairOf vs, saved).
Proof.
  induction vs as [|v vs IH]; intros Hall saved; [reflexivity|].
  simpl in Hall. apply andb_prop in Hall as [Hv Hvs]. simpl.
  fold (Unmarshal_NoteAttribute v). rewrite (Unmarshal_NoteAttribute_fits _ Hv).
  now rewrite firstError_None_r, (IH Hvs).
Qed.

Lemma array_NoteAttribute_saved vs :
  forall e, snd (array_NoteAttribute vs (Some e)) = Some e.
Proof.
  induction vs as [|v vs IH]; intros e; [reflexivity|].
  simpl. destruct (value_NoteAttribute v zeroNoteAttribute) as [p e1]. simpl.
  specialize (IH e). destruct (array_NoteAttribute vs (Some e)). exact IH.
Qed.

Lemma array_NoteAttribute_unfit vs :
  forallb propertyObject vs = false ->
  forall saved, exists e, snd (array_NoteAttribute vs saved) = Some e.
Proof.
  induction vs as [|v vs IH]; intros Hall saved; [discriminate|].
  simpl in Hall. apply andb_false_iff in Hall as [Hv | Hvs]; simpl.
  - destruct (Unmarshal_NoteAttribute_unfit _ Hv) as [e He].
    unfold Unmarshal_NoteAttribute in He.
    destruct (value_NoteAttribute v zeroNoteAttribute) as [p e1]. simpl in He. subst e1.
    assert (exists e', firstError saved (Some e) = Some e') as [e' ->]
      by (destruct saved; simpl; eauto).
    pose proof (array_NoteAttribute_saved vs e') as Hs.
    destruct (array_NoteAttribute vs (Some e')). simpl in *. eauto.
  - destruct (value_NoteAttribute v zeroNoteAttribute) as [p e1].
    destruct (IH Hvs (firstError saved e1)) as [e He].
    destruct (array_NoteAttribute vs (firstError saved e1)). simpl in *. eauto.
Qed.

(** The second decode, on a recognised shape and on any other text. *)
Lemma recognized_array vs :
  recognized (JArray vs) = true ->
  Unmarshal_NoteAttributes (JArray vs) = (Some (List.map pairOf vs), None).
Proof.
  simpl. intros H. now rewrite (array_NoteAttribute_fits _ H).
Qed.

Lemma unrecognized_array vs :
  recognized (JArray vs) = false ->
  exists p e, Unmarshal_NoteAttributes (JArray vs) = (p, Some e).
Proof.
  simpl. intros H. destruct (array_NoteAttribute_unfit _ H None) as [e He].
  destruct (array_NoteAttribute vs None) as [ps e']. simpl in He. subst. eauto.
Qed.

Lemma recognized_not_array raw :
  Ascii.eqb (firstByte raw) "[" = false ->
  recognized raw = propertyObject raw.
Proof. destruct raw; simpl; try reflexivity. discriminate. Qed.

(** *** The decoder *)

Section WithFields.

Variable Fixed : Type.
Variable decodeField : Fixed -> string -> value -> Fixed * fieldOutcome.

Local Abbreviation LineItem := (LineItemJSON.LineItem Fixed).
Local Abbreviation UnmarshalJSON := (LineItemJSON.UnmarshalJSON decodeField).
Local Abbreviation Unmarshal_aux := (LineItemJSON.Unmarshal_aux decodeField).
Local Abbreviation object_aux := (LineItemJSON.object_aux decodeField).

(** The first decode never writes the receiver's own [Properties]. *)
Lemma object_aux_keeps ms :
  forall (a : auxLineItem Fixed) saved,
  Properties (alias (fst (object_aux ms a saved))) = Properties (alias a).
Proof.
  induction ms as [|[key v] rest IH]; intros a saved; [reflexivity|].
  simpl. destruct (findField fieldNames key) as [field|]; [|apply IH].
  destruct (String.eqb field "properties"); [now rewrite IH|].
  destruct (decodeField (fixed (alias a)) field v) as [f [|e|e]];
    [rewrite IH | rewrite IH | ]; reflexivity.
Qed.

(** When the first decode ends without error nothing was saved before it,
    and [aux.Properties] holds the text of the [properties] member that
    counts, if there is one. *)
Lemma object_aux_raw ms :
  forall (a a' : auxLineItem Fixed) saved,
  object_aux ms a saved = (a', None) ->
  saved = None
  /\ auxProperties a' = match propertiesOf ms with
                        | Some v => Some v
                        | None => auxProperties a
                        end.
Proof.
  unfold propertiesOf.
  induction ms as [|[key v] rest IH]; intros a a' saved H.
  - injection H as <- ->. now split.
  - cbn [LineItemJSON.object_aux member] in *. unfold storedIn.
    destruct (findField fieldNames key) as [field|].
    + destruct (String.eqb field "properties").
      * apply IH in H as [-> ->]. split; [reflexivity|].
        now destruct (member fieldNames "properties" rest).
      * destruct (decodeField (fixed (alias a)) field v) as [f [|e|e]].
        -- apply IH in H as [-> ->]. split; [reflexivity|].
           now destruct (member fieldNames "properties" rest).
        -- apply IH in H as [H _]. now destruct saved.
        -- discriminate.
    + apply IH in H as [-> ->]. split; [reflexivity|].
      now destruct (member fieldNames "properties" rest).
Qed.



(** The second decode on a recognised shape, and on any other text. *)
Lemma resolveProperties_recognized (li : LineItem) raw :
  recognized raw = true ->
  resolveProperties li raw = (setProperties li (canonicalProperties raw), None).
Proof.
  intros H. unfold resolveProperties.
  destruct (Ascii.eqb (firstByte raw) "[") eqn:E.
  - apply Ascii.eqb_eq, firstByte_array in E as [vs ->].
    now rewrite (recognized_array _ H).
  - rewrite (recognized_not_array _ E) in H.
    rewrite (Unmarshal_NoteAttribute_fits _ H).
    fold (blank (pairOf raw)).
    destruct raw; try discriminate; unfold canonicalProperties;
      now destruct (blank _).
Qed.

Lemma resolveProperties_unrecognized (li : LineItem) raw :
  recognized raw = false ->
  exists e, resolveProperties li raw = (li, Some e).
Proof.
  intros H. unfold resolveProperties.
  destruct (Ascii.eqb (firstByte raw) "[") eqn:E.
  - apply Ascii.eqb_eq, firstByte_array in E as [vs ->].
    destruct (unrecognized_array _ H) as (p & e & ->). eauto.
  - rewrite (recognized_not_array _ E) in H.
    destruct (Unmarshal_NoteAttribute_unfit _ H) as [e He].
    destruct (Unmarshal_NoteAttribute raw) as [p e']. simpl in He. subst. eauto.
Qed.

(** [UnmarshalJSON] on the text of an object, by the result of the first
    decode. *)
Lemma LineItem_UnmarshalJSON_object (li : LineItem) ms :
  UnmarshalJSON li (Valid (JObject ms))
  = match object_aux ms {| auxProperties := None; alias := li |} None with
    | (a, Some err) => Returned (alias a, Some err)
    | (a, None) =>
        match propertiesOf ms with
        | None => Returned (alias a, None)
        | Some raw => Returned (resolveProperties (alias a) raw)
        end
    end.
Proof.
  unfold LineItemJSON.UnmarshalJSON, LineItemJSON.Unmarshal_aux.
  destruct (object_aux ms _ None) as [a [err|]] eqn:H; [reflexivity|].
  apply object_aux_raw in H as [_ ->]. simpl.
  now destruct (propertiesOf ms).
Qed.

Lemma LineItem_aux_object (li : LineItem) ms a err :
  Unmarshal_aux (Valid (JObject ms)) li = (Some a, err) ->
  object_aux ms {| auxProperties := None; alias := li |} None = (a, err).
Proof.
  unfold LineItemJSON.Unmarshal_aux.
  destruct (object_aux ms _ None) as [a' err']. now intros [= -> ->].
Qed.

Lemma blank_iff p :
  blank p = true <-> Name p = EmptyString /\ Value p = AnyNil.
Proof.
  unfold blank. rewrite andb_true_iff, String.eqb_eq.
  destruct (Value p); simpl; intuition discriminate.
Qed.

(** C4.  Take a line-item object whose first decode reports no error.  If it
    has no [properties] member the call returns no error and leaves the
    receiver's properties as they were, so a fresh record has none.  If its
    [properties] member is a single property object, the call returns no
    error, the other fields are those of the first decode, and the
    properties of the receiver are nil when the pair is blank (empty name
    and nil value, both) and the one-element slice of that pair otherwise,
    whatever the receiver held.  After the input [{"properties": {}}] the
    properties are nil and there is no error. *)
Theorem absent_or_blank_properties_give_none (li : LineItem) ms a :
  Unmarshal_aux (Valid (JObject ms)) li = (Some a, None) ->
  (propertiesOf ms = None ->
   UnmarshalJSON li (Valid (JObject ms)) = Returned (alias a, None)
   /\ Properties (alias a) = Properties li
   /\ (len (Properties li) = 0 -> len (Properties (alias a)) = 0))
  /\ (forall raw,
       propertiesOf ms = Some raw ->
       propertyObject raw = true ->
       exists li',
         UnmarshalJSON li (Valid (JObject ms)) = Returned (li', None)
         /\ fixed li' = fixed (alias a)
         /\ Properties li'
            = (if blank (pairOf raw) then None else Some [pairOf raw])
         /\ (blank (pairOf raw) = true
             <-> Name (pairOf raw) = EmptyString /\ Value (pairOf raw) = AnyNil))
  /\ (exists li',
        UnmarshalJSON li (Valid (JObject [("properties", JObject [])]))
        = Returned (li', None)
        /\ fixed li' = fixed li
        /\ Properties li' = None).
Proof.
  intros H. apply LineItem_aux_object in H.
  pose proof (object_aux_keeps ms {| auxProperties := None; alias := li |} None) as Hk.
  rewrite H in Hk. simpl in Hk.
  split; [|split].
  - intros Hnone. rewrite LineItem_UnmarshalJSON_object, H, Hnone.
    repeat split; trivial. now rewrite Hk.
  - intros raw Hraw Hobj.
    exists {| fixed := fixed (alias a);
              Properties := if blank (pairOf raw) then None
                            else Some [pairOf raw] |}.
    split; [|split; [reflexivity|split; [reflexivity|apply blank_iff]]].
    rewrite LineItem_UnmarshalJSON_object, H, Hraw.
    rewrite resolveProperties_recognized
      by (destruct raw; try discriminate; assumption).
    destruct raw; try discriminate; reflexivity.
  - exists {| fixed := fixed li; Properties := None |}.
    split; [reflexivity|]. now split.
Qed.


(** C6.  Take a line-item object whose first decode reports no error and
    whose [properties] member starts with an opening bracket.  The member is
    an array, and when its elements are property objects the call returns no
    error, the other fields are those of the first decode, and the
    properties of the receiver are the pairs the elements spell, in the
    order of the array, whatever the receiver held.  After the input of the
    specification the properties are the one pair named a with the string
    value 1. *)
Theorem array_properties_decode_in_order (li : LineItem) ms a raw :
  Unmarshal_aux (Valid (JObject ms)) li = (Some a, None) ->
  propertiesOf ms = Some raw ->
  firstByte raw = "["%char ->
  (exists vs,
     raw = JArray vs
     /\ (forallb propertyObject vs = true ->
         exists li',
           UnmarshalJSON li (Valid (JObject ms)) = Returned (li', None)
           /\ fixed li' = fixed (alias a)
           /\ Properties li' = Some (List.map pairOf vs)))
  /\ (exists li',
        UnmarshalJSON li
          (Valid (JObject [("properties",
                            JArray [JObject [("name", JString "a");
                                             ("value", JString "1")]])]))
        = Returned (li', None)
        /\ fixed li' = fixed li
        /\ Properties li' = Some [{| Name := "a"; Value := AnyString "1" |}]).
Proof.
  intros H Hraw Hfirst. split.
  - apply LineItem_aux_object in H.
    destruct (firstByte_array _ Hfirst) as [vs ->].
    exists vs. split; [reflexivity|]. intros Hall.
    exists {| fixed := fixed (alias a); Properties := Some (List.map pairOf vs) |}.
    split; [|now split].
    rewrite LineItem_UnmarshalJSON_object, H, Hraw.
    now rewrite resolveProperties_recognized.
  - exists {| fixed := fixed li;
              Properties := Some [{| Name := "a"; Value := AnyString "1" |}] |}.
    split; [reflexivity|]. now split.
Qed.

(** C7.  A text that is no JSON, a text that is JSON but neither an object
    nor null, and an object whose [properties] member is in neither
    recognised shape (a number, a string and a boolean never are) all make
    the call return an error, with the receiver's properties left as they
    were.  Conversely, when the call on an object returns no error, the
    properties were left alone because there was no [properties] member, or
    the member was in a recognised shape and the properties are the sequence
    it stands for. *)
Theorem decode_errors_reach_the_caller (li : LineItem) :
  UnmarshalJSON li Invalid = Returned (li, Some SyntaxError)
  /\ (forall v,
       match v with JNull | JObject _ => False | _ => True end ->
       exists e, UnmarshalJSON li (Valid v) = Returned (li, Some e))
  /\ (forall ms raw,
       propertiesOf ms = Some raw ->
       recognized raw = false ->
       exists li' e,
         UnmarshalJSON li (Valid (JObject ms)) = Returned (li', Some e)
         /\ Properties li' = Properties li)
  /\ (forall literal s b,
       recognized (JNumber literal) = false
       /\ recognized (JString s) = false
       /\ recognized (JBool b) = false)
  /\ (forall ms li',
       UnmarshalJSON li (Valid (JObject ms)) = Returned (li', None) ->
       match propertiesOf ms with
       | None => Properties li' = Properties li
       | Some raw =>
           recognized raw = true /\ Properties li' = canonicalProperties raw
       end).
Proof.
  split; [reflexivity|]. split; [|split; [|split]].
  - intros v Hv. destruct v; try contradiction; eexists; reflexivity.
  - intros ms raw Hraw Hun. rewrite LineItem_UnmarshalJSON_object.
    pose proof (object_aux_keeps ms {| auxProperties := None; alias := li |} None) as Hk.
    destruct (object_aux ms _ None) as [a [err|]]; simpl in Hk.
    + eauto.
    + rewrite Hraw.
      destruct (resolveProperties_unrecognized (alias a) _ Hun) as [e ->]. eauto.
  - intros. repeat split.
  - intros ms li' H. rewrite LineItem_UnmarshalJSON_object in H.
    pose proof (object_aux_keeps ms {| auxProperties := None; alias := li |} None) as Hk.
    destruct (object_aux ms _ None) as [a [err|]]; simpl in Hk; [discriminate|].
    destruct (propertiesOf ms) as [raw|].
    + destruct (recognized raw) eqn:R.
      * rewrite (resolveProperties_recognized _ _ R) in H.
        injection H as <-. now split.
      * destruct (resolveProperties_unrecognized (alias a) _ R) as [e He].
        rewrite He in H. discriminate.
    + now injection H as <-.
Qed.

(** *** Encoding and decoding again *)

Variable encodeField : Fixed -> string -> option value + error.
Variable encodeProperties : list NoteAttribute -> value + error.

Local Abbreviation Marshal := (LineItemJSON.Marshal encodeField encodeProperties).
Local Abbreviation marshalFields :=
  (LineItemJSON.marshalFields encodeField encodeProperties).




End WithFields.
End LineItemProofs.

(** ** ShippingLines *)

Module ShippingLinesProofs.
Import Strconv Fmt Decode DecodeFacts ShippingLinesJSON.




Section WithFields.

Variable Fixed : Type.
Variable decodeField : Fixed -> string -> value -> Fixed * fieldOutcome.

Local Abbreviation ShippingLines := (ShippingLinesJSON.ShippingLines Fixed).
Local Abbreviation UnmarshalJSON := (ShippingLinesJSON.UnmarshalJSON decodeField).
Local Abbreviation Unmarshal_aux := (ShippingLinesJSON.Unmarshal_aux decodeField).
Local Abbreviation object_aux := (ShippingLinesJSON.object_aux decodeField).

(** The first decode never writes the receiver's own identifier. *)
Lemma object_aux_keeps_id ms :
  forall (a : auxShippingLines Fixed) saved,
  RequestedFulfillmentServiceId (alias (fst (object_aux ms a saved)))
  = RequestedFulfillmentServiceId (alias a).
Proof.
  induction ms as [|[key v] rest IH]; intros a saved; [reflexivity|].
  simpl. destruct (findField fieldNames key) as [field|]; [|apply IH].
  destruct (String.eqb field idField).
  - destruct (storeInterface (auxRequestedFulfillmentServiceId a) v).
    now rewrite IH.
  - destruct (decodeField (fixed (alias a)) field v) as [f [|e|e]];
      [rewrite IH | rewrite IH | ]; reflexivity.
Qed.





(** When the first decode ends without error nothing was saved before it,
    the member that counts for the identifier had a value that fits, and
    [aux] holds that value. *)
Lemma object_aux_id ms :
  forall (a a' : auxShippingLines Fixed) saved,
  object_aux ms a saved = (a', None) ->
  saved = None
  /\ auxRequestedFulfillmentServiceId a'
     = match requestedOf ms with
       | Some v => fst (valueInterface v)
       | None => auxRequestedFulfillmentServiceId a
       end.
Proof.
  unfold requestedOf.
  induction ms as [|[key v] rest IH]; intros a a' saved H.
  - injection H as <- ->. now split.
  - cbn [ShippingLinesJSON.object_aux member] in *. unfold storedIn.
    destruct (findField fieldNames key) as [field|].
    + destruct (String.eqb field idField).
      * pose proof (storeInterface_error (auxRequestedFulfillmentServiceId a) v) as He.
        destruct (storeInterface (auxRequestedFulfillmentServiceId a) v) as [x e] eqn:S.
        simpl in He. apply IH in H as (Hs & Ha). simpl in Ha.
        apply firstError_is_None in Hs as [-> ->].
        rewrite storeInterface_fits in S by auto. injection S as <-.
        split; [reflexivity|].
        rewrite Ha. now destruct (member fieldNames idField rest).
      * destruct (decodeField (fixed (alias a)) field v) as [f [|e|e]].
        -- apply IH in H as (-> & ->). split; [reflexivity|].
           now destruct (member fieldNames idField rest).
        -- apply IH in H as (H & _). now destruct saved.
        -- discriminate.
    + apply IH in H as (-> & ->). split; [reflexivity|].
      now destruct (member fieldNames idField rest).
Qed.

(** [UnmarshalJSON] on the text of an object, by the result of the first
    decode. *)
Lemma ShippingLines_UnmarshalJSON_object (sl : ShippingLines) ms :
  UnmarshalJSON sl (Valid (JObject ms))
  = match object_aux ms {| alias := sl;
                           auxRequestedFulfillmentServiceId := AnyNil |} None with
    | (a, Some err) => Returned (alias a, Some err)
    | (a, None) =>
        match auxRequestedFulfillmentServiceId a with
        | AnyNil =>
            Returned (setRequestedFulfillmentServiceId (alias a) EmptyString, None)
        | x =>
            Returned (setRequestedFulfillmentServiceId (alias a) (Sprintf_v x), None)
        end
    end.
Proof.
  unfold ShippingLinesJSON.UnmarshalJSON, ShippingLinesJSON.Unmarshal_aux.
  now destruct (object_aux ms _ None) as [a [err|]].
Qed.

Lemma ShippingLines_aux_object (sl : ShippingLines) ms a err :
  Unmarshal_aux (Valid (JObject ms)) sl = (Some a, err) ->
  object_aux ms {| alias := sl; auxRequestedFulfillmentServiceId := AnyNil |} None
  = (a, err).
Proof.
  unfold ShippingLinesJSON.Unmarshal_aux.
  destruct (object_aux ms _ None) as [a' err']. now intros [= -> ->].
Qed.


(** An explicit null for the identifier, where no member for it came
    before, changes nothing in the first decode. *)
Lemma object_aux_null key ms2 :
  storedIn fieldNames idField key = true ->
  forall ms1 (a : auxShippingLines Fixed) saved,
  requestedOf ms1 = None ->
  auxRequestedFulfillmentServiceId a = AnyNil ->
  object_aux (ms1 ++ (key, JNull) :: ms2) a saved = object_aux (ms1 ++ ms2) a saved.
Proof.
  intros Hkey. unfold requestedOf.
  induction ms1 as [|[k v] ms1 IH]; intros a saved Hnone Hnil.
  - simpl. unfold storedIn in Hkey.
    destruct (findField fieldNames key) as [field|]; [|discriminate].
    rewrite Hkey. simpl. rewrite firstError_None_r.
    destruct a as [al x]. simpl in Hnil. now subst x.
  - cbn [member] in Hnone.
    destruct (member fieldNames idField ms1); [discriminate|].
    unfold storedIn in Hnone. simpl.
    destruct (findField fieldNames k) as [field|]; [|now apply IH].
    destruct (String.eqb field idField); [discriminate|].
    destruct (decodeField (fixed (alias a)) field v) as [f [|e|e]];
      [now apply IH | now apply IH | reflexivity].
Qed.

(** C10.  In a shipping-line object with no member for the identifier, the
    call returns no error whenever the first decode reports none, the other
    fields are those of the first decode, and the identifier of the receiver
    is the empty string, whatever the receiver held; writing an explicit
    null for the identifier anywhere in the object changes nothing in what
    the call does.  After the empty object the identifier is the empty
    string. *)
Theorem absent_id_reads_as_null (sl : ShippingLines) ms1 ms2 key :
  requestedOf (ms1 ++ ms2) = None ->
  storedIn fieldNames idField key = true ->
  (forall a,
     Unmarshal_aux (Valid (JObject (ms1 ++ ms2))) sl = (Some a, None) ->
     exists sl',
       UnmarshalJSON sl (Valid (JObject (ms1 ++ ms2))) = Returned (sl', None)
       /\ fixed sl' = fixed (alias a)
       /\ RequestedFulfillmentServiceId sl' = EmptyString)
  /\ UnmarshalJSON sl (Valid (JObject (ms1 ++ (key, JNull) :: ms2)))
     = UnmarshalJSON sl (Valid (JObject (ms1 ++ ms2)))
  /\ (exists sl',
        UnmarshalJSON sl (Valid (JObject [])) = Returned (sl', None)
        /\ fixed sl' = fixed sl
        /\ RequestedFulfillmentServiceId sl' = EmptyString).
Proof.
  intros Hnone Hkey. split; [|split].
  - intros a H. apply ShippingLines_aux_object in H.
    exists {| fixed := fixed (alias a);
              RequestedFulfillmentServiceId := EmptyString |}.
    split; [|now split].
    rewrite ShippingLines_UnmarshalJSON_object, H.
    apply object_aux_id in H as [_ Ha]. rewrite Hnone in Ha. simpl in Ha.
    now rewrite Ha.
  - rewrite !ShippingLines_UnmarshalJSON_object, (object_aux_null _ _ Hkey); trivial.
    unfold requestedOf in *. rewrite member_app in Hnone.
    destruct (member fieldNames idField ms2); [discriminate | assumption].
  - exists {| fixed := fixed sl; RequestedFulfillmentServiceId := EmptyString |}.
    split; [reflexivity|]. now split.
Qed.

End WithFields.
End ShippingLinesProofs.

(** ** The theorems at concrete inputs *)

Module Witness.
Import Strconv Fmt Decode.

(** Two pages, the first naming the options value 10 for the second. *)
Lemma ListAll_walks_every_page_witness :
  Walker.ListAll (@Some nat) Sample.playback 3
    [Sample.page [1] (Some 10); Sample.page [2; 3] None] tt None
  = Some {| Walker.world := [];
            Walker.calls := [None; Some 10];
            Walker.result := Returned (Some [1; 2; 3], None) |}.
Proof.
  apply (WalkerProofs.ListAll_walks_every_page
           nat nat (option nat) unit string (list Sample.reply)
           (@Some nat) Sample.playback
           3 tt _ None [(Some [1], 10)] [Sample.page [2; 3] None] (Some 10)
           [] (Some [2; 3])).
  - econstructor; [reflexivity | constructor].
  - reflexivity.
  - simpl. lia.
Defined.

(** Two pages of one record each, then an error on the third fetch. *)
Lemma ListAll_stops_at_first_error_witness :
  Walker.ListAll (@Some nat) Sample.playback 5
    [Sample.page [1] (Some 10); Sample.page [2] (Some 20);
     Sample.failure "boom"; Sample.page [4] None] tt None
  = Some {| Walker.world := [Sample.page [4] None];
            Walker.calls := [None; Some 10; Some 20];
            Walker.result := Returned (Some [1; 2], Some "boom") |}.
Proof.
  apply (WalkerProofs.ListAll_stops_at_first_error
           nat nat (option nat) unit string (list Sample.reply)
           (@Some nat) Sample.playback
           5 tt _ None [(Some [1], 10); (Some [2], 20)]
           [Sample.failure "boom"; Sample.page [4] None] (Some 20)
           [Sample.page [4] None] (Sample.failure "boom") "boom").
  - econstructor; [reflexivity|]. econstructor; [reflexivity | constructor].
  - reflexivity.
  - reflexivity.
  - simpl. lia.
Defined.

(** An error on the very first fetch. *)
Lemma ListAll_never_returns_nil_witness :
  Walker.ListAll (@Some nat) Sample.playback 1 [Sample.failure "boom"] tt None
  = Some {| Walker.world := [];
            Walker.calls := [None];
            Walker.result := Returned (Some [], Some "boom") |}
  /\ isNil (@Some (list nat) []) = false
  /\ (forall e, Some "boom" = Some e -> @Some (list nat) [] = Some [] /\ Some "boom" = Some e).
Proof.
  split; [reflexivity|].
  pose proof (WalkerProofs.ListAll_never_returns_nil
                nat nat (option nat) unit string (list Sample.reply)
                (@Some nat) Sample.playback
                1 tt [Sample.failure "boom"] None
                {| Walker.world := [];
                   Walker.calls := [None];
                   Walker.result := Returned (Some [], Some "boom") |}
                (Some []) (Some "boom") eq_refl eq_refl) as (H1 & _ & H3).
  split; [exact H1 | exact H3].
Defined.

(** [{"id": 7, "properties": {}}] and
    [{"id": 7, "properties": {"name": "a"}}] into a record that holds a
    property: the first clears the properties, the second replaces them. *)
Lemma absent_or_blank_properties_give_none_witness :
  let used : Sample.LineItem :=
    {| LineItemJSON.fixed := Sample.zero;
       LineItemJSON.Properties :=
         Some [{| LineItemJSON.Name := "size";
                  LineItemJSON.Value := AnyString "M" |}] |} in
  (exists li',
     LineItemJSON.UnmarshalJSON Sample.decodeField used
       (Valid (JObject [("id", JInt 7); ("properties", JObject [])]))
     = Returned (li', None)
     /\ LineItemJSON.fixed li' = {| Sample.Id := 7; Sample.Title := EmptyString |}
     /\ LineItemJSON.Properties li' = None)
  /\ (exists li',
        LineItemJSON.UnmarshalJSON Sample.decodeField used
          (Valid (JObject [("id", JInt 7);
                           ("properties", JObject [("name", JString "a")])]))
        = Returned (li', None)
        /\ LineItemJSON.fixed li' = {| Sample.Id := 7; Sample.Title := EmptyString |}
        /\ LineItemJSON.Properties li'
           = Some [{| LineItemJSON.Name := "a"; LineItemJSON.Value := AnyNil |}]).
Proof.
  intros used. split.
  - destruct (proj1 (proj2 (LineItemProofs.absent_or_blank_properties_give_none
                              Sample.fields Sample.decodeField used
                              [("id", JInt 7); ("properties", JObject [])]
                              _ eq_refl))
                    (JObject []) eq_refl eq_refl)
      as (li' & H1 & H2 & H3 & _).
    exists li'. split; [exact H1|]. split; [exact H2|exact H3].
  - destruct (proj1 (proj2 (LineItemProofs.absent_or_blank_properties_give_none
                              Sample.fields Sample.decodeField used
                              [("id", JInt 7);
                               ("properties", JObject [("name", JString "a")])]
                              _ eq_refl))
                    (JObject [("name", JString "a")]) eq_refl eq_refl)
      as (li' & H1 & H2 & H3 & _).
    exists li'. split; [exact H1|]. split; [exact H2|exact H3].
Defined.


(** [{"properties": [{"name": "a", "value": "1"}, {"name": "b"}]}] into a
    record that holds another property. *)
Lemma array_properties_decode_in_order_witness :
  let used : Sample.LineItem :=
    {| LineItemJSON.fixed := Sample.zero;
       LineItemJSON.Properties :=
         Some [{| LineItemJSON.Name := "size";
                  LineItemJSON.Value := AnyString "M" |}] |} in
  exists li',
    LineItemJSON.UnmarshalJSON Sample.decodeField used
      (Valid (JObject
                [("properties",
                  JArray [JObject [("name", JString "a"); ("value", JString "1")];
                          JObject [("name", JString "b")]])]))
    = Returned (li', None)
    /\ LineItemJSON.fixed li' = Sample.zero
    /\ LineItemJSON.Properties li'
       = Some [{| LineItemJSON.Name := "a"; LineItemJSON.Value := AnyString "1" |};
               {| LineItemJSON.Name := "b"; LineItemJSON.Value := AnyNil |}].
Proof.
  intros used.
  destruct (proj1 (LineItemProofs.array_properties_decode_in_order
                     Sample.fields Sample.decodeField used
                     [("properties",
                       JArray [JObject [("name", JString "a"); ("value", JString "1")];
                               JObject [("name", JString "b")]])]
                     _ _ eq_refl eq_refl eq_refl))
    as (vs & E & H).
  injection E as <-.
  destruct (H eq_refl) as (li' & H1 & H2 & H3).
  exists li'. split; [exact H1|]. split; [exact H2|exact H3].
Defined.

(** [{"properties": 42}]. *)
Lemma decode_errors_reach_the_caller_witness :
  exists li' e,
    LineItemJSON.UnmarshalJSON Sample.decodeField Sample.freshLineItem
      (Valid (JObject [("properties", JInt 42)]))
    = Returned (li', Some e)
    /\ LineItemJSON.Properties li' = LineItemJSON.Properties Sample.freshLineItem.
Proof.
  exact (proj1 (proj2 (proj2 (LineItemProofs.decode_errors_reach_the_caller
                                Sample.fields Sample.decodeField Sample.freshLineItem)))
               [("properties", JInt 42)] (JInt 42) eq_refl eq_refl).
Defined.



(** [{"id": 7, "title": "x"}] into a record that holds an identifier, and
    the same with an explicit null for the identifier between the two
    members. *)
Lemma absent_id_reads_as_null_witness :
  let used : Sample.ShippingLines :=
    {| ShippingLinesJSON.fixed := Sample.zero;
       ShippingLinesJSON.RequestedFulfillmentServiceId := "third_party" |} in
  (exists sl',
     ShippingLinesJSON.UnmarshalJSON Sample.decodeField used
       (Valid (JObject [("id", JInt 7); ("title", JString "x")]))
     = Returned (sl', None)
     /\ ShippingLinesJSON.fixed sl' = {| Sample.Id := 7; Sample.Title := "x" |}
     /\ ShippingLinesJSON.RequestedFulfillmentServiceId sl' = EmptyString)
  /\ ShippingLinesJSON.UnmarshalJSON Sample.decodeField used
       (Valid (JObject [("id", JInt 7); (ShippingLinesJSON.idField, JNull);
                        ("title", JString "x")]))
     = ShippingLinesJSON.UnmarshalJSON Sample.decodeField used
         (Valid (JObject [("id", JInt 7); ("title", JString "x")])).
Proof.
  intros used.
  destruct (ShippingLinesProofs.absent_id_reads_as_null
              Sample.fields Sample.decodeField used
              [("id", JInt 7)] [("title", JString "x")]
              ShippingLinesJSON.idField eq_refl eq_refl) as (H1 & H2 & _).
  split; [exact (H1 _ eq_refl)|exact H2].
Defined.

End Witness.

(** ** Edge cases, run *)

Module Edge.
Import Strconv Fmt Decode.

Local Abbreviation lineItem := (LineItemJSON.UnmarshalJSON Sample.decodeField).
Local Abbreviation shippingLines := (ShippingLinesJSON.UnmarshalJSON Sample.decodeField).
Local Abbreviation withId v :=
  (Valid (JObject [(ShippingLinesJSON.idField, v)])).
Local Abbreviation idOf o :=
  (match o with
   | Returned (sl, None) => Some (ShippingLinesJSON.RequestedFulfillmentServiceId sl)
   | _ => None
   end).

(** The [%v] text of a number is that of a [float64]: plain digits below a
    million, an exponent from there on, and rounded digits beyond 2^53. *)
Example identifiers_from_a_million_up_get_an_exponent :
  idOf (shippingLines Sample.freshShippingLines (withId (JInt 999999)))
  = Some "999999"
  /\ idOf (shippingLines Sample.freshShippingLines (withId (JInt 1000000)))
     = Some "1e+06"
  /\ idOf (shippingLines Sample.freshShippingLines (withId (JInt 12345678)))
     = Some "1.2345678e+07"
  /\ idOf (shippingLines Sample.freshShippingLines (withId (JInt 9007199254740993)))
     = Some "9.007199254740992e+15".
Proof. repeat split; vm_compute; reflexivity. Qed.

(** Booleans, arrays and objects take the default branch as well. *)
Example other_values_are_printed_too :
  idOf (shippingLines Sample.freshShippingLines (withId (JBool true)))
  = Some "true"
  /\ idOf (shippingLines Sample.freshShippingLines
             (withId (JArray [JInt 1; JNull; JString "x";
                              JObject [("b", JBool false); ("a", JInt 2)]])))
     = Some "[1 <nil> x map[a:2 b:false]]".
Proof. repeat split; vm_compute; reflexivity. Qed.

(** The text [null] in place of the record: [json.Unmarshal] sets [aux] to
    nil and the next line dereferences it. *)
Example the_text_null_panics :
  lineItem Sample.freshLineItem (Valid JNull) = Panicked
  /\ shippingLines Sample.freshShippingLines (Valid JNull) = Panicked.
Proof. split; reflexivity. Qed.

(** The array form keeps what the object form drops: an empty array is an
    empty slice that is not nil, and blank elements stay. *)
Example the_array_form_does_not_collapse :
  lineItem Sample.freshLineItem (Valid (JObject [("properties", JArray [])]))
  = Returned (LineItemJSON.setProperties Sample.freshLineItem (Some []), None)
  /\ lineItem Sample.freshLineItem
       (Valid (JObject [("properties", JArray [JObject []; JNull])]))
     = Returned (LineItemJSON.setProperties Sample.freshLineItem
                   (Some [LineItemJSON.zeroNoteAttribute;
                          LineItemJSON.zeroNoteAttribute]), None).
Proof. split; reflexivity. Qed.

(** An explicit null for [properties] reads as the blank object. *)
Example null_properties_give_nil :
  lineItem
    {| LineItemJSON.fixed := Sample.zero;
       LineItemJSON.Properties :=
         Some [{| LineItemJSON.Name := "old"; LineItemJSON.Value := AnyNil |}] |}
    (Valid (JObject [("properties", JNull)]))
  = Returned ({| LineItemJSON.fixed := Sample.zero;
                 LineItemJSON.Properties := None |}, None).
Proof. reflexivity. Qed.

(** Without a [properties] member a receiver that already has properties
    keeps them. *)
Example a_used_receiver_keeps_its_properties :
  lineItem
    {| LineItemJSON.fixed := Sample.zero;
       LineItemJSON.Properties :=
         Some [{| LineItemJSON.Name := "old"; LineItemJSON.Value := AnyNil |}] |}
    (Valid (JObject [("id", JInt 7)]))
  = Returned
      ({| LineItemJSON.fixed := {| Sample.Id := 7; Sample.Title := EmptyString |};
          LineItemJSON.Properties :=
            Some [{| LineItemJSON.Name := "old"; LineItemJSON.Value := AnyNil |}] |},
       None).
Proof. reflexivity. Qed.

(** An error in another field returns before [properties] is looked at. *)
Example another_field_fails_first :
  lineItem Sample.freshLineItem
    (Valid (JObject [("title", JInt 1); ("properties", JObject [("name", JString "a")])]))
  = Returned (Sample.freshLineItem, Some (UnmarshalTypeError OfNumber "string")).
Proof. reflexivity. Qed.

(** Keys match field names whatever their case, and the last member with a
    key counts. *)
Example keys_fold_and_the_last_member_counts :
  lineItem Sample.freshLineItem
    (Valid (JObject [("properties", JInt 1);
                     ("PROPERTIES", JObject [("NAME", JString "a")])]))
  = Returned (LineItemJSON.setProperties Sample.freshLineItem
                (Some [{| LineItemJSON.Name := "a"; LineItemJSON.Value := AnyNil |}]),
              None).
Proof. reflexivity. Qed.

End Edge.

(** ** Where the specification says more than the code does *)

Module Counter.
Import Strconv Fmt Decode.


End Counter.

(** ** More on the pagination walker *)

Module WalkerEdges.
Import SliceFacts.

Section WalkerEdges.

Variables Order ListOptions Iface Ctx GoError World : Type.
Variable toIface : ListOptions -> Iface.
Variable client :
  World -> Ctx -> string -> Iface
  -> World * Walker.clientReply Order ListOptions GoError.

Local Abbreviation ListAll := (Walker.ListAll toIface client).
Local Abbreviation ListAll_loop := (Walker.ListAll_loop toIface client).
Local Abbreviation List := (Service.List client).
Local Abbreviation pages := (Walker.pages toIface client).
Local Abbreviation nextOptionsOf := (Walker.nextOptionsOf toIface).
Local Abbreviation path := (Walker.ordersBasePath ++ ".json")%string.

(** While every fetch names a successor the loop uses up any bound. *)
Lemma loop_endless ctx (inv : World -> Iface -> Prop) :
  (forall w o, inv w o ->
   exists w' recs next,
     client w ctx path o
     = (w', {| Walker.replyOrders := recs;
               Walker.replyPagination :=
                 Some {| Walker.NextPageOptions := Some next |};
               Walker.replyErr := None |})
     /\ inv w' (toIface next)) ->
  forall fuel w o acc called,
  inv w o -> ListAll_loop fuel w ctx o acc called = None.
Proof.
  intros He. induction fuel as [|fuel IH]; intros w o acc called Hi.
  - reflexivity.
  - destruct (He w o Hi) as (w' & recs & next & Hc & Hi').
    simpl. unfold Walker.ListWithPagination. rewrite Hc. simpl.
    now apply IH.
Qed.

(** X1.  [ListAll] has no page ceiling.  When, from the initial world and
    options on, every fetch succeeds and names a successor, and leaves a
    world and options of which the same holds, the loop is still running
    after any number of turns: [ListAll] never returns. *)
Theorem ListAll_follows_successors_without_end ctx
        (inv : World -> Iface -> Prop) w o :
  (forall w o, inv w o ->
   exists w' recs next,
     client w ctx path o
     = (w', {| Walker.replyOrders := recs;
               Walker.replyPagination :=
                 Some {| Walker.NextPageOptions := Some next |};
               Walker.replyErr := None |})
     /\ inv w' (toIface next)) ->
  inv w o ->
  forall fuel, ListAll fuel w ctx o = None.
Proof.
  intros He Hi fuel. unfold Walker.ListAll. now apply (loop_endless ctx inv).
Qed.

(** X2.  [ListAll] reads [pagination.NextPageOptions] without a nil check.
    When, after pages that each name a successor, a fetch returns no error
    and a nil [*Pagination], [ListAll] panics there, having made one fetch
    per page; [List], which drops the pagination unread, returns the records
    of that same reply. *)
Theorem ListAll_panics_on_a_nil_pagination ctx w o ps w1 o1 w2 reply fuel :
  pages ctx w o ps w1 o1 ->
  client w1 ctx path o1 = (w2, reply) ->
  Walker.replyErr reply = None ->
  Walker.replyPagination reply = None ->
  ListAll (List.length ps + S fuel) w ctx o
  = Some {| Walker.world := w2;
            Walker.calls := o :: nextOptionsOf ps;
            Walker.result := Panicked |}
  /\ List w1 ctx o1 = (w2, (Walker.replyOrders reply, None)).
Proof.
  intros Hp Hc He Hn. split.
  - unfold Walker.ListAll.
    destruct (WalkerProofs.loop_pages _ _ _ _ _ _ _ _ _ _ _ _ _ _ Hp (S fuel) [] [])
      as (called' & Hl & Hcalls).
    rewrite Hl. simpl. unfold Walker.ListWithPagination. rewrite Hc, He, Hn.
    simpl. simpl in Hcalls. now rewrite Hcalls.
  - unfold Service.List, Walker.ListWithPagination. rewrite Hc, He. reflexivity.
Qed.

(** X3.  [List] makes one fetch and returns its records, or nil and the
    error when it fails.  When that fetch fails or names no successor,
    [ListAll] makes the same single fetch, leaves the same world and returns
    the same error and the same records, as a slice that is never nil. *)
Theorem List_is_ListAll_on_a_last_page w ctx o w' reply fuel :
  client w ctx path o = (w', reply) ->
  match Walker.replyErr reply, Walker.replyPagination reply with
  | Some _, _ => True
  | None, Some pg => Walker.NextPageOptions pg = None
  | None, None => False
  end ->
  exists recs err,
    List w ctx o = (w', (recs, err))
    /\ ListAll (S fuel) w ctx o
       = Some {| Walker.world := w';
                 Walker.calls := [o];
                 Walker.result := Returned (Some (elems recs), err) |}
    /\ (forall e, Walker.replyErr reply = Some e -> recs = None /\ err = Some e)
    /\ (Walker.replyErr reply = None -> recs = Walker.replyOrders reply /\ err = None).
Proof.
  intros Hc Hlast.
  unfold Service.List, Walker.ListAll. simpl.
  unfold Walker.ListWithPagination. rewrite Hc.
  destruct reply as [ro rp re]. simpl in *.
  destruct re as [e|].
  - exists None, (Some e). simpl.
    split; [reflexivity|]. split; [reflexivity|].
    split; [|discriminate].
    intros e' He'. injection He' as <-. now split.
  - destruct rp as [[np]|]; [|contradiction]. simpl in Hlast. subst np.
    exists ro, None. simpl. rewrite append_Some. simpl.
    split; [reflexivity|]. split; [reflexivity|].
    split; [discriminate|]. now split.
Qed.

End WalkerEdges.
End WalkerEdges.

(** ** The paths of the order service *)

Module ServiceProofs.
Import Service.

Lemma append_cancel_l (p x y : string) : (p ++ x)%string = (p ++ y)%string -> x = y.
Proof.
  induction p as [|c p IH]; simpl; intros H; [assumption|].
  injection H as H. now apply IH.
Qed.

(** The digits of a number end where a dot or a slash follows them. *)
Lemma digits_then_separator d1 :
  forall d2 c1 r1 c2 r2,
  (c1 = "."%char \/ c1 = "/"%char) ->
  (c2 = "."%char \/ c2 = "/"%char) ->
  (NilEmpty.string_of_uint d1 ++ String c1 r1)%string
  = (NilEmpty.string_of_uint d2 ++ String c2 r2)%string ->
  d1 = d2 /\ String c1 r1 = String c2 r2.
Proof.
  induction d1 as [|d1 IH|d1 IH|d1 IH|d1 IH|d1 IH|d1 IH|d1 IH|d1 IH|d1 IH|d1 IH];
    intros d2 c1 r1 c2 r2 H1 H2 H;
    destruct d2 as [|d2|d2|d2|d2|d2|d2|d2|d2|d2|d2]; simpl in H;
    try (now split);
    try (injection H as H;
         destruct (IH _ _ _ _ _ H1 H2 H) as [-> E]; now split);
    try (injection H as Hc _;
         first [ discriminate Hc
               | destruct H1 as [-> | ->]; discriminate Hc
               | destruct H2 as [-> | ->]; discriminate Hc ]).
Qed.

Lemma Sprintf_d_then_separator a b c1 r1 c2 r2 :
  (c1 = "."%char \/ c1 = "/"%char) ->
  (c2 = "."%char \/ c2 = "/"%char) ->
  (Sprintf_d a ++ String c1 r1)%string = (Sprintf_d b ++ String c2 r2)%string ->
  a = b /\ String c1 r1 = String c2 r2.
Proof.
  intros H1 H2 H. unfold Sprintf_d in H.
  destruct (digits_then_separator _ _ _ _ _ _ H1 H2 H) as [E E'].
  split; [|assumption].
  rewrite <- (Unsigned.of_to a), <- (Unsigned.of_to b). now rewrite E.
Qed.

Lemma Sprintf_d_digit n :
  exists c r, Sprintf_d n = String c r
              /\ c <> "c"%char /\ c <> "."%char.
Proof.
  unfold Sprintf_d.
  assert (H : N.to_uint n <> Decimal.Nil).
  { destruct n as [|p]; [discriminate|]. simpl.
    intros E. apply (f_equal Pos.of_uint) in E.
    rewrite DecimalPos.Unsigned.of_to in E. discriminate. }
  destruct (N.to_uint n); try congruence; simpl; eexists _, _;
    (split; [reflexivity|split; discriminate]).
Qed.

(** X4.  The paths handed to the client.  [Get], [Update] and [Delete] use
    [orders/<id>.json], [Cancel], [Close] and [Open] a path of their own
    under [orders/<id>/]: each of the four tells any two order ids apart, no
    two of them ever coincide, and none is the path of [List] and [Create]
    ([orders.json]) or that of [Count] ([orders/count.json]). *)
Theorem order_paths_tell_orders_and_operations_apart (a b : N) :
  (orderPath a = orderPath b -> a = b)
  /\ (cancelPath a = cancelPath b -> a = b)
  /\ (closePath a = closePath b -> a = b)
  /\ (openPath a = openPath b -> a = b)
  /\ orderPath a <> cancelPath b
  /\ orderPath a <> closePath b
  /\ orderPath a <> openPath b
  /\ cancelPath a <> closePath b
  /\ cancelPath a <> openPath b
  /\ closePath a <> openPath b
  /\ (forall p, In p [orderPath a; cancelPath a; closePath a; openPath a] ->
      p <> collectionPath /\ p <> countPath).
Proof.
  unfold orderPath, cancelPath, closePath, openPath, collectionPath, countPath.
  assert (sep : forall x y c1 r1 c2 r2,
             (c1 = "."%char \/ c1 = "/"%char) ->
             (c2 = "."%char \/ c2 = "/"%char) ->
             (Walker.ordersBasePath ++ "/" ++ Sprintf_d x ++ String c1 r1)%string
             = (Walker.ordersBasePath ++ "/" ++ Sprintf_d y ++ String c2 r2)%string ->
             x = y /\ String c1 r1 = String c2 r2).
  { intros x y c1 r1 c2 r2 H1 H2 H.
    apply append_cancel_l, append_cancel_l in H.
    now apply (Sprintf_d_then_separator _ _ _ _ _ _ H1 H2). }
  repeat split;
    try (intros H; apply sep in H; [|now (left + right)|now (left + right)];
         destruct H as [E E']; first [exact E | discriminate E']).
  - destruct H as [<-|[<-|[<-|[<-|[]]]]]; intros E;
      destruct (Sprintf_d_digit a) as (c & r & Hs & _ & Hd);
      rewrite Hs in E; simpl in E; injection E as E; congruence.
  - destruct H as [<-|[<-|[<-|[<-|[]]]]]; intros E;
      apply append_cancel_l in E;
      destruct (Sprintf_d_digit a) as (c & r & Hs & Hc & _);
      rewrite Hs in E; simpl in E; injection E as E; congruence.
Qed.

End ServiceProofs.

(** ** Records decoded inside a larger value, and what an error leaves *)

Module ElementFacts.
Import Decode Elements.

Section ElementFacts.

Variable T : Type.
Variable zero : T.
Variable UnmarshalJSON : T -> text -> outcome (T * option error).

Hypothesis panics_on_null :
  forall t data, UnmarshalJSON t data = Panicked <-> data = Valid JNull.

Local Abbreviation array := (array_Unmarshaler zero UnmarshalJSON).

(** The decode of an array panics exactly when it gets to a null element. *)
Lemma array_panics vs :
  array vs = Panicked
  <-> exists before after,
        vs = before ++ JNull :: after
        /\ Forall (fun v => exists t, UnmarshalJSON zero (Valid v) = Returned (t, None))
                  before.
Proof.
  induction vs as [|v rest IH]; simpl.
  - split; [discriminate|]. intros (before & after & H & _).
    now destruct before.
  - destruct (UnmarshalJSON zero (Valid v)) as [[t [e|]]|] eqn:Hu.
    + split; [discriminate|]. intros (before & after & H & Hb).
      destruct before as [|b before]; simpl in H; injection H as -> ->.
      * assert (Hn : UnmarshalJSON zero (Valid JNull) = Panicked)
          by now apply panics_on_null.
        congruence.
      * inversion Hb as [|? ? (t' & Ht') _]; subst. congruence.
    + destruct (array rest) as [[ts err]|] eqn:Hr.
      * split; [discriminate|]. intros (before & after & H & Hb).
        destruct before as [|b before]; simpl in H; injection H as -> ->.
        { assert (Hn : UnmarshalJSON zero (Valid JNull) = Panicked)
            by now apply panics_on_null.
          congruence. }
        { inversion Hb as [|? ? _ Hb']; subst.
          enough (Hp : Returned (ts, err) = @Panicked (list T * option error))
            by discriminate.
          apply IH. now exists before, after. }
      * split; [|reflexivity]. intros _.
        destruct (proj1 IH eq_refl) as (before & after & -> & Hb).
        exists (v :: before), after. split; [reflexivity|].
        constructor; [now exists t|assumption].
    + apply panics_on_null in Hu. injection Hu as ->.
      split; [|reflexivity]. intros _. now exists [], rest.
Qed.

(** It returns without an error exactly when every element decodes without
    one, and then holds the decoded elements in the order of the array. *)
Lemma array_succeeds vs : forall ts,
  array vs = Returned (ts, None)
  <-> Forall2 (fun v t => UnmarshalJSON zero (Valid v) = Returned (t, None)) vs ts.
Proof.
  induction vs as [|v rest IH]; intros ts; simpl.
  - split.
    + intros H. injection H as <-. constructor.
    + intros H. now inversion H.
  - destruct (UnmarshalJSON zero (Valid v)) as [[t [e|]]|] eqn:Hu.
    + split; [discriminate|]. intros H. inversion H; subst. congruence.
    + destruct (array rest) as [[ts' err]|] eqn:Hr.
      * split.
        { intros H. injection H as <- ->. constructor; [assumption|].
          now apply IH. }
        { intros H. inversion H as [|? t0 ? ts0 Ht Hf]; subst.
          apply IH in Hf. rewrite Hu in Ht. injection Ht as <-.
          congruence. }
      * split; [discriminate|]. intros H.
        inversion H as [|? t0 ? ts0 Ht Hf]; subst.
        apply IH in Hf. rewrite Hf in Hr. discriminate.
    + split; [discriminate|]. intros H. inversion H; subst. congruence.
Qed.

(** A pointer field never panics: null is not handed on. *)
Lemma pointer_returns old v :
  exists p o, value_pointer zero UnmarshalJSON old v = Returned (p, o).
Proof.
  unfold value_pointer.
  destruct v; try (now eexists _, _);
    match goal with
    | |- context [UnmarshalJSON ?t (Valid ?x)] =>
        destruct (UnmarshalJSON t (Valid x)) as [[t' [e|]]|] eqn:Hu;
        [now eexists _, _ | now eexists _, _ |
         apply panics_on_null in Hu; discriminate]
    end.
Qed.

End ElementFacts.
End ElementFacts.

Module DecoderEdges.
Import Strconv Fmt Decode DecodeFacts.

Section LineItems.
Import LineItemJSON LineItemProofs.

Variable Fixed : Type.
Variable decodeField : Fixed -> string -> value -> Fixed * fieldOutcome.

Local Abbreviation LineItem := (LineItemJSON.LineItem Fixed).
Local Abbreviation UnmarshalJSON := (LineItemJSON.UnmarshalJSON decodeField).

(** The text [null] is the one input on which the call panics. *)
Lemma LineItem_panics (li : LineItem) data :
  UnmarshalJSON li data = Panicked <-> data = Valid JNull.
Proof.
  split.
  - destruct data as [|v]; [discriminate|].
    destruct v as [| | | | |ms]; try discriminate; [reflexivity|].
    rewrite LineItem_UnmarshalJSON_object.
    destruct (object_aux _ _ _ _) as [a [e|]]; [discriminate|].
    destruct (propertiesOf ms); discriminate.
  - now intros ->.
Qed.

(** X5.  [LineItem.UnmarshalJSON] panics on the text [null] and on no other
    input; and whenever it returns an error, whatever the stage it comes
    from, the receiver's [Properties] are those it held before the call. *)
Theorem LineItem_decode_panics_on_null_and_keeps_properties_on_error
        (li : LineItem) data :
  (UnmarshalJSON li data = Panicked <-> data = Valid JNull)
  /\ (forall li' e,
        UnmarshalJSON li data = Returned (li', Some e) ->
        Properties li' = Properties li).
Proof.
  split; [apply LineItem_panics|].
  intros li' e.
  destruct data as [|v].
  - intros H. now injection H as <-.
  - destruct v as [| | | | |ms]; try (intros H; now injection H as <-);
      [discriminate|].
    rewrite LineItem_UnmarshalJSON_object.
    pose proof (object_aux_keeps _ decodeField ms
                  {| auxProperties := None; alias := li |} None) as Hk.
    destruct (object_aux _ _ _ _) as [a [e'|]]; simpl in Hk.
    + intros H. now injection H as <-.
    + destruct (propertiesOf ms) as [raw|]; [|discriminate].
      destruct (recognized raw) eqn:Hr.
      * rewrite resolveProperties_recognized by assumption. discriminate.
      * destruct (resolveProperties_unrecognized _ (alias a) raw Hr) as (e2 & ->).
        intros H. now injection H as <-.
Qed.

(** X6.  The [line_items] of an order ([[]LineItem], line 301) are decoded
    one element after the other, each by [LineItem.UnmarshalJSON] on a fresh
    line item.  The decode panics exactly when the array has a null element
    before which every element decodes without error; it returns without
    error exactly when every element does, with the decoded line items in
    the order of the array.  A [*LineItem] field ([RefundLineItem.LineItem],
    line 603) never panics: null is stored as a nil pointer. *)
Theorem a_null_line_item_panics_unless_an_earlier_one_failed (zero : Fixed) vs :
  let fresh := {| fixed := zero; Properties := None |} in
  let array := Elements.array_Unmarshaler fresh UnmarshalJSON in
  (array vs = Panicked
   <-> exists before after,
         vs = before ++ JNull :: after
         /\ Forall (fun v => exists li,
                      UnmarshalJSON fresh (Valid v) = Returned (li, None)) before)
  /\ (forall lis,
        array vs = Returned (lis, None)
        <-> Forall2 (fun v li => UnmarshalJSON fresh (Valid v) = Returned (li, None))
                    vs lis)
  /\ (forall old v,
        exists p o,
          Elements.value_pointer fresh UnmarshalJSON old v = Returned (p, o)).
Proof.
  intros fresh array. split; [|split].
  - apply ElementFacts.array_panics. apply LineItem_panics.
  - apply ElementFacts.array_succeeds.
  - apply ElementFacts.pointer_returns. apply LineItem_panics.
Qed.

End LineItems.

Section ShippingLines.
Import ShippingLinesJSON ShippingLinesProofs.

Variable Fixed : Type.
Variable decodeField : Fixed -> string -> value -> Fixed * fieldOutcome.

Local Abbreviation ShippingLines := (ShippingLinesJSON.ShippingLines Fixed).
Local Abbreviation UnmarshalJSON := (ShippingLinesJSON.UnmarshalJSON decodeField).
Local Abbreviation object_aux := (ShippingLinesJSON.object_aux decodeField).

(** The text [null] is the one input on which the call panics. *)
Lemma ShippingLines_panics (sl : ShippingLines) data :
  UnmarshalJSON sl data = Panicked <-> data = Valid JNull.
Proof.
  split.
  - destruct data as [|v]; [discriminate|].
    destruct v as [| | | | |ms]; try discriminate; [reflexivity|].
    rewrite ShippingLines_UnmarshalJSON_object.
    destruct (ShippingLinesJSON.object_aux _ _ _ _) as [a [e|]]; [discriminate|].
    destruct (auxRequestedFulfillmentServiceId a); discriminate.
  - now intros ->.
Qed.

(** Two receivers with the same other fields go through the same decode. *)
Lemma object_aux_whatever_text ms :
  forall (a a2 : auxShippingLines Fixed) saved,
  fixed (alias a) = fixed (alias a2) ->
  auxRequestedFulfillmentServiceId a = auxRequestedFulfillmentServiceId a2 ->
  fixed (alias (fst (object_aux ms a saved)))
  = fixed (alias (fst (object_aux ms a2 saved)))
  /\ auxRequestedFulfillmentServiceId (fst (object_aux ms a saved))
     = auxRequestedFulfillmentServiceId (fst (object_aux ms a2 saved))
  /\ snd (object_aux ms a saved) = snd (object_aux ms a2 saved).
Proof.
  induction ms as [|[key v] rest IH]; intros a a2 saved Hf Hx; simpl.
  - auto.
  - destruct (findField fieldNames key) as [field|]; [|now apply IH].
    destruct (String.eqb field idField).
    + rewrite Hx.
      destruct (storeInterface (auxRequestedFulfillmentServiceId a2) v) as [x e].
      now apply IH.
    + rewrite Hf.
      destruct (decodeField (fixed (alias a2)) field v) as [f [|e|e]];
        try (now apply IH); simpl; auto.
Qed.

(** X7.  [ShippingLines.UnmarshalJSON] panics on the text [null] and on no
    other input; when it returns an error the receiver's identifier is the
    one it held before; when it returns none, the receiver it leaves does not
    depend on the identifier held before. *)
Theorem ShippingLines_decode_replaces_the_identifier_or_keeps_it
        (sl : ShippingLines) data :
  (UnmarshalJSON sl data = Panicked <-> data = Valid JNull)
  /\ (forall sl' e,
        UnmarshalJSON sl data = Returned (sl', Some e) ->
        RequestedFulfillmentServiceId sl' = RequestedFulfillmentServiceId sl)
  /\ (forall sl' s,
        UnmarshalJSON sl data = Returned (sl', None) ->
        UnmarshalJSON (setRequestedFulfillmentServiceId sl s) data
        = Returned (sl', None)).
Proof.
  split; [apply ShippingLines_panics|]. split.
  - intros sl' e.
    destruct data as [|v].
    + intros H. now injection H as <-.
    + destruct v as [| | | | |ms]; try (intros H; now injection H as <-);
        [discriminate|].
      rewrite ShippingLines_UnmarshalJSON_object.
      pose proof (object_aux_keeps_id _ decodeField ms
                    {| alias := sl; auxRequestedFulfillmentServiceId := AnyNil |}
                    None) as Hk.
      destruct (ShippingLinesJSON.object_aux _ _ _ _) as [a [e'|]]; simpl in Hk.
      * intros H. now injection H as <-.
      * destruct (auxRequestedFulfillmentServiceId a); discriminate.
  - intros sl' s.
    destruct data as [|v]; [discriminate|].
    destruct v as [| | | | |ms]; try discriminate.
    rewrite !ShippingLines_UnmarshalJSON_object.
    destruct (object_aux_whatever_text ms
                {| alias := sl; auxRequestedFulfillmentServiceId := AnyNil |}
                {| alias := setRequestedFulfillmentServiceId sl s;
                   auxRequestedFulfillmentServiceId := AnyNil |}
                None eq_refl eq_refl) as (Hf & Hx & He).
    destruct (ShippingLinesJSON.object_aux decodeField ms
                {| alias := sl; auxRequestedFulfillmentServiceId := AnyNil |} None)
      as [a err].
    destruct (ShippingLinesJSON.object_aux decodeField ms
                {| alias := setRequestedFulfillmentServiceId sl s;
                   auxRequestedFulfillmentServiceId := AnyNil |} None)
      as [a2 err2].
    simpl in Hf, Hx, He. subst err2. rewrite <- Hx.
    destruct err as [e|]; [discriminate|].
    unfold setRequestedFulfillmentServiceId. rewrite <- Hf.
    now destruct (auxRequestedFulfillmentServiceId a).
Qed.

(** X8.  The [shipping_lines] of an order ([[]ShippingLines], line 302) are
    decoded one element after the other by [ShippingLines.UnmarshalJSON]:
    the decode panics exactly when the array has a null element before which
    every element decodes without error, and returns without error exactly
    when every element does, with the decoded shipping lines in order. *)
Theorem a_null_shipping_line_panics_unless_an_earlier_one_failed (zero : Fixed) vs :
  let fresh := {| fixed := zero; RequestedFulfillmentServiceId := EmptyString |} in
  let array := Elements.array_Unmarshaler fresh UnmarshalJSON in
  (array vs = Panicked
   <-> exists before after,
         vs = before ++ JNull :: after
         /\ Forall (fun v => exists sl,
                      UnmarshalJSON fresh (Valid v) = Returned (sl, None)) before)
  /\ (forall sls,
        array vs = Returned (sls, None)
        <-> Forall2 (fun v sl => UnmarshalJSON fresh (Valid v) = Returned (sl, None))
                    vs sls).
Proof.
  intros fresh array. split.
  - apply ElementFacts.array_panics. apply ShippingLines_panics.
  - apply ElementFacts.array_succeeds.
Qed.

End ShippingLines.
End DecoderEdges.

(** ** Encoding and decoding again *)

Module RoundTrip.
Import Strconv Fmt Decode DecodeFacts Encode.

Section LineItems.
Import LineItemJSON LineItemProofs.

Variable Fixed : Type.
Variable decodeField : Fixed -> string -> value -> Fixed * fieldOutcome.
Variable encodeField : Fixed -> string -> option value + error.
Variable encodeAny : any -> value + error.

Local Abbreviation LineItem := (LineItemJSON.LineItem Fixed).
Local Abbreviation UnmarshalJSON := (LineItemJSON.UnmarshalJSON decodeField).
Local Abbreviation encodeProperties := (marshal_NoteAttributes encodeAny).
Local Abbreviation Marshal := (LineItemJSON.Marshal encodeField encodeProperties).
Local Abbreviation marshalFields :=
  (LineItemJSON.marshalFields encodeField encodeProperties).

Local Abbreviation readsBack :=
  (fun q : NoteAttribute =>
     toValidUTF8 (Name q) = Name q
     /\ forall j, encodeAny (Value q) = inl j -> valueInterface j = (Value q, None)).

Lemma marshal_NoteAttribute_reads_back q j :
  readsBack q ->
  marshal_NoteAttribute encodeAny q = inl j ->
  propertyObject j = true /\ pairOf j = q.
Proof.
  intros [Hn Hv]. unfold marshal_NoteAttribute, encodeString. rewrite Hn.
  destruct q as [n x]. simpl in *.
  assert (Hnil : x = AnyNil ->
                 @inl value error
                      (JObject (if String.eqb n EmptyString then []
                                else [("name", JString n)])) = inl j ->
                 propertyObject j = true /\ pairOf j = {| Name := n; Value := x |}).
  { intros -> H. injection H as <-.
    destruct (String.eqb_spec n EmptyString) as [->|_]; now split. }
  assert (Hval : match encodeAny x with
                 | inl j0 =>
                     @inl value error
                          (JObject ((if String.eqb n EmptyString then []
                                     else [("name", JString n)])
                                    ++ [("value", j0)]))
                 | inr e => inr e
                 end = inl j ->
                 propertyObject j = true /\ pairOf j = {| Name := n; Value := x |}).
  { destruct (encodeAny x) as [j0|e] eqn:He; [|discriminate].
    intros H. injection H as <-.
    specialize (Hv j0 eq_refl).
    assert (Hf : fitsInterface j0 = true) by (unfold fitsInterface; now rewrite Hv).
    destruct (String.eqb_spec n EmptyString) as [->|_]; simpl.
    - change (propertyMember ("value", j0)) with (fitsInterface j0).
      rewrite Hf. split; [reflexivity|].
      unfold pairOf. simpl.
      change (storedIn noteAttributeFields "value" "value") with true.
      change (findField noteAttributeFields "value") with (Some "value").
      simpl. rewrite Hv. simpl. now destruct j0.
    - change (propertyMember ("value", j0)) with (fitsInterface j0).
      change (propertyMember ("name", JString n)) with true.
      rewrite Hf. split; [reflexivity|].
      unfold pairOf. simpl.
      change (storedIn noteAttributeFields "value" "value") with true.
      change (storedIn noteAttributeFields "value" "name") with false.
      change (findField noteAttributeFields "value") with (Some "value").
      change (findField noteAttributeFields "name") with (Some "name").
      simpl. rewrite Hv. simpl. now destruct j0. }
  destruct x; auto.
Qed.

Lemma marshal_elements_read_back qs :
  Forall readsBack qs ->
  forall js, marshal_elements encodeAny qs = inl js ->
  forallb propertyObject js = true /\ List.map pairOf js = qs.
Proof.
  induction 1 as [|q qs Hq _ IH]; intros js; simpl.
  - intros H. injection H as <-. now split.
  - destruct (marshal_NoteAttribute encodeAny q) as [j|e] eqn:Hj; [|discriminate].
    destruct (marshal_elements encodeAny qs) as [js'|e]; [|discriminate].
    intros H. injection H as <-.
    destruct (marshal_NoteAttribute_reads_back q j Hq Hj) as [Ho Hp].
    destruct (IH js' eq_refl) as [Hos Hps].
    simpl. now rewrite Ho, Hos, Hp, Hps.
Qed.

(** The members [json.Marshal] writes hold the properties once, under their
    own name. *)
Lemma marshalFields_properties (li : LineItem) q qs raw :
  elems (Properties li) = q :: qs ->
  encodeProperties (q :: qs) = inl raw ->
  forall names, incl names fieldNames ->
  forall ms, marshalFields names li = inl ms ->
  propertiesOf ms
  = if existsb (String.eqb "properties") names then Some raw else None.
Proof.
  intros Hp He. induction names as [|name rest IH]; intros Hi ms.
  - simpl. intros H. now injection H as <-.
  - cbn [LineItemJSON.marshalFields existsb].
    assert (Hin : In name fieldNames) by (apply Hi; now left).
    assert (Hrest : incl rest fieldNames)
      by (intros x Hx; apply Hi; now right).
    assert (Hs : storedIn fieldNames "properties" name = String.eqb name "properties").
    { unfold storedIn. now rewrite (findField_exact _ _ Hin). }
    unfold marshalField. rewrite (String.eqb_sym "properties" name).
    destruct (String.eqb name "properties") eqn:Hname.
    + rewrite Hp, He.
      destruct (marshalFields rest li) as [ms'|e] eqn:Hm; [|discriminate].
      intros H. injection H as <-.
      unfold propertiesOf. simpl. fold (propertiesOf ms').
      rewrite (IH Hrest ms' eq_refl), Hs.
      now destruct (existsb _ rest).
    + destruct (encodeField (fixed li) name) as [o|e]; [|discriminate].
      destruct (marshalFields rest li) as [ms'|e] eqn:Hm; [|discriminate].
      intros H. injection H as <-.
      destruct o as [v|]; [|now apply IH].
      unfold propertiesOf. simpl. fold (propertiesOf ms').
      rewrite (IH Hrest ms' eq_refl), Hs.
      now destruct (existsb _ rest).
Qed.

(** An encoder error on the properties fails the whole encoding. *)
Lemma marshalFields_fails (li : LineItem) q qs e :
  elems (Properties li) = q :: qs ->
  encodeProperties (q :: qs) = inr e ->
  forall names ms, In "properties" names -> marshalFields names li <> inl ms.
Proof.
  intros Hp He.
  induction names as [|name rest IH]; intros ms Hin; [destruct Hin|].
  cbn [LineItemJSON.marshalFields].
  destruct Hin as [->|Hin].
  - unfold marshalField. simpl. rewrite Hp, He. discriminate.
  - destruct (marshalField encodeField encodeProperties li name);
      [|discriminate].
    destruct (marshalFields rest li) as [ms2|] eqn:Hm2; [|discriminate].
    exfalso. now apply (IH ms2).
Qed.

(** X9.  Filled properties survive a round trip.  When a line item holds
    at least one property, each with a name that is well-formed UTF-8 and a
    value that reads back from what the encoder writes for it, decoding the
    text [json.Marshal] returns for it, into any receiver, returns; without
    an error the receiver holds the very same properties, in order (a blank
    pair among them stays: only the single-object form collapses); with an
    error it holds the properties it had. *)
Theorem filled_properties_survive_a_round_trip (li li0 : LineItem) q qs v :
  elems (Properties li) = q :: qs ->
  Forall (fun q : NoteAttribute =>
            toValidUTF8 (Name q) = Name q
            /\ forall j, encodeAny (Value q) = inl j ->
                         valueInterface j = (Value q, None)) (q :: qs) ->
  Marshal li = inl v ->
  exists li' err,
    UnmarshalJSON li0 (Valid v) = Returned (li', err)
    /\ (err = None -> Properties li' = Some (q :: qs))
    /\ (err <> None -> Properties li' = Properties li0).
Proof.
  intros Hp Hr. unfold LineItemJSON.Marshal.
  destruct (marshalFields fieldNames li) as [ms|e] eqn:Hm; [|discriminate].
  intros H. injection H as <-.
  assert (Hraw : exists js, encodeProperties (q :: qs) = inl (JArray js)
                            /\ forallb propertyObject js = true
                            /\ List.map pairOf js = q :: qs).
  { destruct (encodeProperties (q :: qs)) as [raw|e] eqn:He.
    - unfold marshal_NoteAttributes in He.
      destruct (marshal_elements encodeAny (q :: qs)) as [js|e] eqn:Hj;
        [|discriminate].
      injection He as <-. exists js. split; [reflexivity|].
      now apply marshal_elements_read_back.
    - exfalso. apply (marshalFields_fails li q qs e Hp He fieldNames ms);
        [|assumption].
      unfold fieldNames. simpl. tauto. }
  destruct Hraw as (js & He & Ho & Hpairs).
  pose proof (marshalFields_properties li q qs (JArray js) Hp He fieldNames
                (fun x H => H) ms Hm) as Hmem.
  change (existsb (String.eqb "properties") fieldNames) with true in Hmem.
  rewrite LineItem_UnmarshalJSON_object, Hmem.
  pose proof (object_aux_keeps _ decodeField ms
                {| auxProperties := None; alias := li0 |} None) as Hk.
  destruct (object_aux _ _ _ _) as [a [e|]]; simpl in Hk.
  - exists (alias a), (Some e). split; [reflexivity|].
    split; [discriminate|]. now intros _.
  - rewrite resolveProperties_recognized by exact Ho.
    eexists _, None. split; [reflexivity|].
    split; [|congruence]. intros _. simpl. now rewrite Hpairs.
Qed.

End LineItems.

Section ShippingLines.
Import ShippingLinesJSON ShippingLinesProofs.

Variable Fixed : Type.
Variable decodeField : Fixed -> string -> value -> Fixed * fieldOutcome.
Variable encodeField : Fixed -> string -> option value + error.

Local Abbreviation ShippingLines := (ShippingLinesJSON.ShippingLines Fixed).
Local Abbreviation UnmarshalJSON := (ShippingLinesJSON.UnmarshalJSON decodeField).
Local Abbreviation Marshal := (Encode.Marshal encodeField).
Local Abbreviation marshalFields := (Encode.marshalFields encodeField).

(** The members [json.Marshal] writes hold the identifier once, when it is
    not empty. *)
Lemma marshalFields_identifier (sl : ShippingLines) :
  forall names, incl names fieldNames ->
  forall ms, marshalFields names sl = inl ms ->
  requestedOf ms
  = if existsb (String.eqb idField) names
       && negb (String.eqb (RequestedFulfillmentServiceId sl) EmptyString)
    then Some (encodeString (RequestedFulfillmentServiceId sl))
    else None.
Proof.
  induction names as [|name rest IH]; intros Hi ms.
  - simpl. intros H. now injection H as <-.
  - cbn [Encode.marshalFields existsb].
    assert (Hin : In name fieldNames) by (apply Hi; now left).
    assert (Hrest : incl rest fieldNames)
      by (intros x Hx; apply Hi; now right).
    assert (Hs : storedIn fieldNames idField name = String.eqb name idField).
    { unfold storedIn. now rewrite (findField_exact _ _ Hin). }
    unfold marshalField. rewrite (String.eqb_sym idField name).
    destruct (String.eqb name idField) eqn:Hname.
    + destruct (String.eqb (RequestedFulfillmentServiceId sl) EmptyString) eqn:Hempty;
        destruct (marshalFields rest sl) as [ms'|e] eqn:Hm; try discriminate;
        intros H; injection H as <-.
      * rewrite (IH Hrest ms' eq_refl). simpl. now rewrite !andb_false_r.
      * unfold requestedOf. simpl. fold (requestedOf ms').
        rewrite (IH Hrest ms' eq_refl), Hs. simpl.
        now destruct (existsb _ rest).
    + destruct (encodeField (fixed sl) name) as [o|e]; [|discriminate].
      destruct (marshalFields rest sl) as [ms'|e] eqn:Hm; [|discriminate].
      intros H. injection H as <-.
      destruct o as [v|]; [|now apply IH].
      unfold requestedOf. simpl. fold (requestedOf ms').
      rewrite (IH Hrest ms' eq_refl), Hs. simpl.
      now destruct (existsb _ rest && _).
Qed.

(** X10.  The identifier survives a round trip.  When the identifier of a
    shipping line is well-formed UTF-8 (the text of a number is), decoding
    the text [json.Marshal] returns for it, into any receiver, returns;
    without an error the receiver holds the same identifier, the empty one
    included; with an error it holds the identifier it had. *)
Theorem the_identifier_survives_a_round_trip (sl sl0 : ShippingLines) v :
  toValidUTF8 (RequestedFulfillmentServiceId sl) = RequestedFulfillmentServiceId sl ->
  Marshal sl = inl v ->
  exists sl' err,
    UnmarshalJSON sl0 (Valid v) = Returned (sl', err)
    /\ (err = None ->
        RequestedFulfillmentServiceId sl' = RequestedFulfillmentServiceId sl)
    /\ (err <> None ->
        RequestedFulfillmentServiceId sl' = RequestedFulfillmentServiceId sl0).
Proof.
  intros Hu. unfold Encode.Marshal.
  destruct (marshalFields fieldNames sl) as [ms|e] eqn:Hm; [|discriminate].
  intros H. injection H as <-.
  pose proof (marshalFields_identifier sl fieldNames (fun x H => H) ms Hm) as Hmem.
  change (existsb (String.eqb idField) fieldNames) with true in Hmem.
  unfold encodeString in Hmem. rewrite Hu in Hmem. simpl in Hmem.
  rewrite ShippingLines_UnmarshalJSON_object.
  pose proof (object_aux_keeps_id _ decodeField ms
                {| alias := sl0; auxRequestedFulfillmentServiceId := AnyNil |}
                None) as Hk.
  pose proof (object_aux_id _ decodeField ms
                {| alias := sl0; auxRequestedFulfillmentServiceId := AnyNil |}) as Hid.
  destruct (ShippingLinesJSON.object_aux _ _ _ _) as [a [e|]] eqn:Ho; simpl in Hk.
  - exists (alias a), (Some e). split; [reflexivity|].
    split; [discriminate|]. now intros _.
  - destruct (Hid a None Ho) as [_ Hx]. rewrite Hmem in Hx. simpl in Hx.
    destruct (String.eqb_spec (RequestedFulfillmentServiceId sl) EmptyString)
      as [Hempty|Hfull]; simpl in Hx; rewrite Hx.
    + eexists _, None. split; [reflexivity|]. split; [|congruence].
      intros _. simpl. now rewrite Hempty.
    + eexists _, None. split; [reflexivity|]. split; [|congruence].
      intros _. reflexivity.
Qed.

End ShippingLines.
End RoundTrip.

(** ** Keys and letter case *)

Module KeyCase.
Import Strconv Fmt Decode DecodeFacts.

(** Among field names no two of which fold alike, a key finds the field
    whose name folds like it. *)
Lemma findField_fold names key :
  (forall n, In n names ->
             List.find (fun m => String.eqb (foldName m) (foldName n)) names = Some n) ->
  findField names key
  = List.find (fun m => String.eqb (foldName m) (foldName key)) names.
Proof.
  intros H. unfold findField.
  destruct (List.find (String.eqb key) names) as [n|] eqn:Hf; [|reflexivity].
  apply find_some in Hf. destruct Hf as [Hin He].
  apply String.eqb_eq in He. subst n. symmetry. now apply H.
Qed.

Lemma LineItem_fields_fold_apart n :
  In n LineItemJSON.fieldNames ->
  List.find (fun m => String.eqb (foldName m) (foldName n)) LineItemJSON.fieldNames
  = Some n.
Proof.
  unfold LineItemJSON.fieldNames. intros H.
  repeat (destruct H as [<-|H]; [vm_compute; reflexivity|]).
  destruct H.
Qed.

Lemma ShippingLines_fields_fold_apart n :
  In n ShippingLinesJSON.fieldNames ->
  List.find (fun m => String.eqb (foldName m) (foldName n)) ShippingLinesJSON.fieldNames
  = Some n.
Proof.
  unfold ShippingLinesJSON.fieldNames. intros H.
  repeat (destruct H as [<-|H]; [vm_compute; reflexivity|]).
  destruct H.
Qed.

Section LineItems.
Import LineItemJSON LineItemProofs.

Variable Fixed : Type.
Variable decodeField : Fixed -> string -> value -> Fixed * fieldOutcome.

Local Abbreviation LineItem := (LineItemJSON.LineItem Fixed).
Local Abbreviation UnmarshalJSON := (LineItemJSON.UnmarshalJSON decodeField).
Local Abbreviation object_aux := (LineItemJSON.object_aux decodeField).

Lemma LineItem_key_fold key key' :
  foldName key = foldName key' ->
  findField fieldNames key = findField fieldNames key'.
Proof.
  intros H.
  rewrite !(findField_fold fieldNames) by apply LineItem_fields_fold_apart.
  now rewrite H.
Qed.

Lemma LineItem_object_aux_fold ms ms' :
  Forall2 (fun m m' : string * value =>
             foldName (fst m) = foldName (fst m') /\ snd m = snd m') ms ms' ->
  forall a saved, object_aux ms a saved = object_aux ms' a saved.
Proof.
  induction 1 as [|[k v] [k' v'] ms ms' [Hk Hv] _ IH]; intros a saved;
    [reflexivity|].
  simpl in Hk, Hv. subst v'. simpl.
  rewrite (LineItem_key_fold k k' Hk).
  destruct (findField fieldNames k') as [field|]; [|apply IH].
  destruct (String.eqb field "properties"); [apply IH|].
  destruct (decodeField (fixed (alias a)) field v) as [f [|e|e]];
    try apply IH; reflexivity.
Qed.

Lemma propertiesOf_fold ms ms' :
  Forall2 (fun m m' : string * value =>
             foldName (fst m) = foldName (fst m') /\ snd m = snd m') ms ms' ->
  propertiesOf ms = propertiesOf ms'.
Proof.
  unfold propertiesOf.
  induction 1 as [|[k v] [k' v'] ms ms' [Hk Hv] _ IH]; [reflexivity|].
  simpl in Hk, Hv. subst v'. simpl. rewrite IH.
  unfold storedIn. now rewrite (LineItem_key_fold k k' Hk).
Qed.

(** X11.  The keys of a line-item object are matched whatever their letter
    case: two objects whose members have, one by one, keys that fold alike
    and the same values are decoded alike, so a [Properties] or [PROPERTIES]
    member goes through the same tolerant decoding as a [properties] one. *)
Theorem LineItem_keys_are_matched_whatever_their_case (li : LineItem) ms ms' :
  Forall2 (fun m m' : string * value =>
             foldName (fst m) = foldName (fst m') /\ snd m = snd m') ms ms' ->
  UnmarshalJSON li (Valid (JObject ms)) = UnmarshalJSON li (Valid (JObject ms')).
Proof.
  intros H. rewrite !LineItem_UnmarshalJSON_object.
  now rewrite (LineItem_object_aux_fold ms ms' H), (propertiesOf_fold ms ms' H).
Qed.

End LineItems.

Section ShippingLines.
Import ShippingLinesJSON ShippingLinesProofs.

Variable Fixed : Type.
Variable decodeField : Fixed -> string -> value -> Fixed * fieldOutcome.

Local Abbreviation ShippingLines := (ShippingLinesJSON.ShippingLines Fixed).
Local Abbreviation UnmarshalJSON := (ShippingLinesJSON.UnmarshalJSON decodeField).
Local Abbreviation object_aux := (ShippingLinesJSON.object_aux decodeField).

Lemma ShippingLines_key_fold key key' :
  foldName key = foldName key' ->
  findField fieldNames key = findField fieldNames key'.
Proof.
  intros H.
  rewrite !(findField_fold fieldNames) by apply ShippingLines_fields_fold_apart.
  now rewrite H.
Qed.

Lemma ShippingLines_object_aux_fold ms ms' :
  Forall2 (fun m m' : string * value =>
             foldName (fst m) = foldName (fst m') /\ snd m = snd m') ms ms' ->
  forall a saved, object_aux ms a saved = object_aux ms' a saved.
Proof.
  induction 1 as [|[k v] [k' v'] ms ms' [Hk Hv] _ IH]; intros a saved;
    [reflexivity|].
  simpl in Hk, Hv. subst v'. simpl.
  rewrite (ShippingLines_key_fold k k' Hk).
  destruct (findField fieldNames k') as [field|]; [|apply IH].
  destruct (String.eqb field idField).
  - destruct (storeInterface (auxRequestedFulfillmentServiceId a) v). apply IH.
  - destruct (decodeField (fixed (alias a)) field v) as [f [|e|e]];
      try apply IH; reflexivity.
Qed.

(** X12.  The keys of a shipping-line object are matched whatever their
    letter case: two objects whose members have, one by one, keys that fold
    alike and the same values are decoded alike. *)
Theorem ShippingLines_keys_are_matched_whatever_their_case
        (sl : ShippingLines) ms ms' :
  Forall2 (fun m m' : string * value =>
             foldName (fst m) = foldName (fst m') /\ snd m = snd m') ms ms' ->
  UnmarshalJSON sl (Valid (JObject ms)) = UnmarshalJSON sl (Valid (JObject ms')).
Proof.
  intros H. rewrite !ShippingLines_UnmarshalJSON_object.
  now rewrite (ShippingLines_object_aux_fold ms ms' H).
Qed.

End ShippingLines.
End KeyCase.

(** ** The theorems above at sample inputs *)

Module AtSamples.
Import Strconv Fmt Decode.

Lemma ListAll_follows_successors_without_end_witness :
  Walker.ListAll Some Stub.endless 1000 0%nat tt None = None.
Proof.
  apply (WalkerEdges.ListAll_follows_successors_without_end
           nat nat (option nat) unit string nat Some Stub.endless tt
           (fun _ _ => True)); [|exact I].
  intros w o _. exists (S w), (Some [w]), (S w). split; [reflexivity|exact I].
Defined.

Lemma ListAll_panics_on_a_nil_pagination_witness :
  Walker.ListAll Some Sample.playback 2
    [Sample.page [1%nat] (Some 5%nat);
     {| Walker.replyOrders := Some [2%nat];
        Walker.replyPagination := None;
        Walker.replyErr := None |}] tt None
  = Some {| Walker.world := [];
            Walker.calls := [None; Some 5%nat];
            Walker.result := Panicked |}
  /\ Service.List Sample.playback
       [{| Walker.replyOrders := Some [2%nat];
           Walker.replyPagination := None;
           Walker.replyErr := None |}] tt (Some 5%nat)
     = ([], (Some [2%nat], None)).
Proof.
  apply (WalkerEdges.ListAll_panics_on_a_nil_pagination
           nat nat (option nat) unit string (list Sample.reply) Some
           Sample.playback tt
           [Sample.page [1%nat] (Some 5%nat);
            {| Walker.replyOrders := Some [2%nat];
               Walker.replyPagination := None;
               Walker.replyErr := None |}]
           None [(Some [1%nat], 5%nat)]
           [{| Walker.replyOrders := Some [2%nat];
               Walker.replyPagination := None;
               Walker.replyErr := None |}]
           (Some 5%nat) []
           {| Walker.replyOrders := Some [2%nat];
              Walker.replyPagination := None;
              Walker.replyErr := None |}
           0%nat).
  - econstructor; [reflexivity|constructor].
  - reflexivity.
  - reflexivity.
  - reflexivity.
Defined.

Lemma List_is_ListAll_on_a_last_page_witness :
  exists recs err,
    Service.List Sample.playback [Sample.page [1%nat; 2%nat] None] tt None
    = ([], (recs, err))
    /\ Walker.ListAll Some Sample.playback 1
         [Sample.page [1%nat; 2%nat] None] tt None
       = Some {| Walker.world := [];
                 Walker.calls := [None];
                 Walker.result := Returned (Some (elems recs), err) |}
    /\ (forall e, Walker.replyErr (Sample.page [1%nat; 2%nat] None) = Some e ->
        recs = None /\ err = Some e)
    /\ (Walker.replyErr (Sample.page [1%nat; 2%nat] None) = None ->
        recs = Walker.replyOrders (Sample.page [1%nat; 2%nat] None) /\ err = None).
Proof.
  apply (WalkerEdges.List_is_ListAll_on_a_last_page
           nat nat (option nat) unit string (list Sample.reply) Some
           Sample.playback [Sample.page [1%nat; 2%nat] None] tt None []
           (Sample.page [1%nat; 2%nat] None) 0%nat).
  - reflexivity.
  - reflexivity.
Defined.

Lemma order_paths_tell_orders_and_operations_apart_witness :
  Service.orderPath 450789469 = "orders/450789469.json"
  /\ Service.orderPath 450789469 <> Service.orderPath 450789470
  /\ Service.orderPath 450789469 <> Service.cancelPath 450789469
  /\ Service.closePath 450789469 <> Service.openPath 450789469.
Proof.
  pose proof (ServiceProofs.order_paths_tell_orders_and_operations_apart
                450789469 450789470) as (Hget & _).
  pose proof (ServiceProofs.order_paths_tell_orders_and_operations_apart
                450789469 450789469) as (_ & _ & _ & _ & Hcancel & _ & _ & _ & _ & Hopen & _).
  split; [reflexivity|]. split; [|split; assumption].
  intros E. apply Hget in E. discriminate E.
Defined.

Lemma LineItem_decode_panics_on_null_and_keeps_properties_on_error_witness :
  let li : Sample.LineItem :=
    {| LineItemJSON.fixed := Sample.zero;
       LineItemJSON.Properties :=
         Some [{| LineItemJSON.Name := "size"; LineItemJSON.Value := AnyString "M" |}] |} in
  let data := Valid (JObject [("title", JString "shirt"); ("properties", JInt 42)]) in
  exists li' e,
    LineItemJSON.UnmarshalJSON Sample.decodeField li data = Returned (li', Some e)
    /\ LineItemJSON.Properties li' = LineItemJSON.Properties li
    /\ Sample.Title (LineItemJSON.fixed li') = "shirt".
Proof.
  intros li data.
  destruct (LineItemJSON.UnmarshalJSON Sample.decodeField li data)
    as [[li' [e|]]|] eqn:H; try (vm_compute in H; discriminate H).
  exists li', e. split; [reflexivity|]. split.
  - exact (proj2 (DecoderEdges.LineItem_decode_panics_on_null_and_keeps_properties_on_error
                    Sample.fields Sample.decodeField li data) li' e H).
  - vm_compute in H. injection H as <- _. reflexivity.
Defined.

Lemma a_null_line_item_panics_unless_an_earlier_one_failed_witness :
  Elements.array_Unmarshaler Sample.freshLineItem
    (LineItemJSON.UnmarshalJSON Sample.decodeField)
    [JObject [("id", JInt 1)]; JNull; JObject [("id", JInt 3)]]
  = Panicked.
Proof.
  apply (proj1 (DecoderEdges.a_null_line_item_panics_unless_an_earlier_one_failed
                  Sample.fields Sample.decodeField Sample.zero
                  [JObject [("id", JInt 1)]; JNull; JObject [("id", JInt 3)]])).
  exists [JObject [("id", JInt 1)]], [JObject [("id", JInt 3)]].
  split; [reflexivity|].
  constructor; [|constructor]. eexists. vm_compute. reflexivity.
Defined.

Lemma ShippingLines_decode_replaces_the_identifier_or_keeps_it_witness :
  ShippingLinesJSON.UnmarshalJSON Sample.decodeField
    (ShippingLinesJSON.setRequestedFulfillmentServiceId
       Sample.freshShippingLines "third_party")
    (Valid (JObject [(ShippingLinesJSON.idField, JInt 42)]))
  = Returned (ShippingLinesJSON.setRequestedFulfillmentServiceId
                Sample.freshShippingLines "42", None).
Proof.
  apply (proj2 (proj2 (DecoderEdges.ShippingLines_decode_replaces_the_identifier_or_keeps_it
                         Sample.fields Sample.decodeField
                         Sample.freshShippingLines
                         (Valid (JObject [(ShippingLinesJSON.idField, JInt 42)]))))).
  vm_compute. reflexivity.
Defined.

Lemma a_null_shipping_line_panics_unless_an_earlier_one_failed_witness :
  Elements.array_Unmarshaler Sample.freshShippingLines
    (ShippingLinesJSON.UnmarshalJSON Sample.decodeField)
    [JObject [("title", JString "post")]; JNull]
  = Panicked.
Proof.
  apply (proj1 (DecoderEdges.a_null_shipping_line_panics_unless_an_earlier_one_failed
                  Sample.fields Sample.decodeField Sample.zero
                  [JObject [("title", JString "post")]; JNull])).
  exists [JObject [("title", JString "post")]], [].
  split; [reflexivity|].
  constructor; [|constructor]. eexists. vm_compute. reflexivity.
Defined.

Lemma filled_properties_survive_a_round_trip_witness :
  let ps := [{| LineItemJSON.Name := "color"; LineItemJSON.Value := AnyString "red" |};
             {| LineItemJSON.Name := EmptyString; LineItemJSON.Value := AnyNil |};
             {| LineItemJSON.Name := "gift"; LineItemJSON.Value := AnyBool true |}] in
  let li : Sample.LineItem :=
    {| LineItemJSON.fixed := {| Sample.Id := 7; Sample.Title := "shirt" |};
       LineItemJSON.Properties := Some ps |} in
  LineItemJSON.Marshal Sample.encodeField
    (Encode.marshal_NoteAttributes Stub.encodeAny) li
  = inl (JObject
           [("id", JInt 7); ("title", JString "shirt");
            ("properties",
             JArray [JObject [("name", JString "color"); ("value", JString "red")];
                     JObject [];
                     JObject [("name", JString "gift"); ("value", JBool true)]])])
  /\ exists li' err,
       LineItemJSON.UnmarshalJSON Sample.decodeField Sample.freshLineItem
         (Valid (JObject
           [("id", JInt 7); ("title", JString "shirt");
            ("properties",
             JArray [JObject [("name", JString "color"); ("value", JString "red")];
                     JObject [];
                     JObject [("name", JString "gift"); ("value", JBool true)]])]))
       = Returned (li', err)
       /\ (err = None -> LineItemJSON.Properties li' = Some ps)
       /\ (err <> None ->
           LineItemJSON.Properties li'
           = LineItemJSON.Properties Sample.freshLineItem).
Proof.
  intros ps li. split; [reflexivity|].
  apply (RoundTrip.filled_properties_survive_a_round_trip
           Sample.fields Sample.decodeField Sample.encodeField Stub.encodeAny
           li Sample.freshLineItem
           {| LineItemJSON.Name := "color"; LineItemJSON.Value := AnyString "red" |}
           [{| LineItemJSON.Name := EmptyString; LineItemJSON.Value := AnyNil |};
            {| LineItemJSON.Name := "gift"; LineItemJSON.Value := AnyBool true |}]).
  - reflexivity.
  - repeat constructor; simpl; intros j H; injection H as <-; reflexivity.
  - reflexivity.
Defined.

Lemma the_identifier_survives_a_round_trip_witness :
  let sl : Sample.ShippingLines :=
    {| ShippingLinesJSON.fixed := {| Sample.Id := 9; Sample.Title := "post" |};
       ShippingLinesJSON.RequestedFulfillmentServiceId := "42" |} in
  Encode.Marshal Sample.encodeField sl
  = inl (JObject [("id", JInt 9); ("title", JString "post");
                  (ShippingLinesJSON.idField, JString "42")])
  /\ exists sl' err,
       ShippingLinesJSON.UnmarshalJSON Sample.decodeField Sample.freshShippingLines
         (Valid (JObject [("id", JInt 9); ("title", JString "post");
                          (ShippingLinesJSON.idField, JString "42")]))
       = Returned (sl', err)
       /\ (err = None -> ShippingLinesJSON.RequestedFulfillmentServiceId sl' = "42")
       /\ (err <> None ->
           ShippingLinesJSON.RequestedFulfillmentServiceId sl'
           = ShippingLinesJSON.RequestedFulfillmentServiceId Sample.freshShippingLines).
Proof.
  intros sl. split; [reflexivity|].
  apply (RoundTrip.the_identifier_survives_a_round_trip
           Sample.fields Sample.decodeField Sample.encodeField
           sl Sample.freshShippingLines).
  - reflexivity.
  - reflexivity.
Defined.


Lemma LineItem_keys_are_matched_whatever_their_case_witness :
  LineItemJSON.UnmarshalJSON Sample.decodeField Sample.freshLineItem
    (Valid (JObject [("Title", JString "shirt");
                     ("PROPERTIES", JObject [("Name", JString "a")])]))
  = LineItemJSON.UnmarshalJSON Sample.decodeField Sample.freshLineItem
      (Valid (JObject [("title", JString "shirt");
                       ("properties", JObject [("Name", JString "a")])])).
Proof.
  apply (KeyCase.LineItem_keys_are_matched_whatever_their_case
           Sample.fields Sample.decodeField Sample.freshLineItem
           [("Title", JString "shirt");
            ("PROPERTIES", JObject [("Name", JString "a")])]
           [("title", JString "shirt");
            ("properties", JObject [("Name", JString "a")])]).
  constructor; [split; [vm_compute; reflexivity|reflexivity]|].
  constructor; [split; [vm_compute; reflexivity|reflexivity]|].
  constructor.
Defined.

Lemma ShippingLines_keys_are_matched_whatever_their_case_witness :
  ShippingLinesJSON.UnmarshalJSON Sample.decodeField Sample.freshShippingLines
    (Valid (JObject [("Requested_Fulfillment_Service_ID", JInt 42)]))
  = ShippingLinesJSON.UnmarshalJSON Sample.decodeField Sample.freshShippingLines
      (Valid (JObject [(ShippingLinesJSON.idField, JInt 42)])).
Proof.
  apply (KeyCase.ShippingLines_keys_are_matched_whatever_their_case
           Sample.fields Sample.decodeField Sample.freshShippingLines
           [("Requested_Fulfillment_Service_ID", JInt 42)]
           [(ShippingLinesJSON.idField, JInt 42)]).
  constructor; [split; [vm_compute; reflexivity|reflexivity]|].
  constructor.
Defined.

End AtSamples.
